(** * BlueprintX: step orchestration and retrieval pipeline

    A shallow embedding of the core of the BlueprintX server:

    - [app/utils/chunking.py]                          (module [chunking])
    - [app/services/vectorstores/faiss_store.py]       (module [faiss_store])
    - [app/services/ingestion/ingestion_pipeline.py]   (module [ingestion_pipeline])
    - [app/agents/document_understanding.py]           (module [document_understanding])
    - [app/agents/orchestrator.py]                     (module [orchestrator])
    - [app/services/extraction/text_extraction.py]     (module [text_extraction])
    - [app/services/llm/groq.py]                       (module [groq])
    - [app/agents/base_agent.py]                       (module [base_agent])
    - [app/agents/use_case_discovery.py], [solution_architecture.py],
      [governance.py], [blueprint_synthesizer.py]      (modules of these names)
    - [app/core/services.py]                           (module [services])

    Python [int] is [Z]; [float] is idealised as an exact rational [Q]
    (rounding to float32 is not modelled); [str] is [string], read as a
    sequence of code points below 256; [Dict[str, Any]] is a [gmap string
    Value]; a raised exception is the [Err] branch of [Result]. *)

From Stdlib Require Import ZArith QArith Lia Sorted Permutation.
From stdpp Require Import gmap strings list fin_maps pretty.
From Equations Require Import Equations.

Set Warnings "-register-all".
#[local] Open Scope Z_scope.

(* ===================================================================== *)
(** * Python values, exceptions and results *)
(* ===================================================================== *)

Module py.

(** An exception object: its class, its message ([str(e)]) and the
    [__cause__] set by [raise ... from ...]. *)
Inductive Exn : Type :=
| MkExn (exn_class : string) (exn_msg : string) (exn_cause : option Exn).

Definition exn_class (e : Exn) : string := let '(MkExn c _ _) := e in c.
Definition str_exn (e : Exn) : string := let '(MkExn _ m _) := e in m.
Definition exn_cause (e : Exn) : option Exn := let '(MkExn _ _ c) := e in c.

(** [raise new from orig] raises [new] with [new.__cause__ = orig]. *)
Definition raise_from (new orig : Exn) : Exn :=
  MkExn (exn_class new) (str_exn new) (Some orig).

Definition ValueError (msg : string) : Exn := MkExn "ValueError" msg None.
Definition TypeError (msg : string) : Exn := MkExn "TypeError" msg None.
Definition KeyError (msg : string) : Exn := MkExn "KeyError" msg None.
Definition IndexError (msg : string) : Exn := MkExn "IndexError" msg None.
Definition Exception (msg : string) : Exn := MkExn "Exception" msg None.

Inductive Result (A : Type) : Type :=
| Ok (a : A)
| Err (e : Exn).
Arguments Ok {A} a.
Arguments Err {A} e.

Definition is_ok {A} (r : Result A) : bool :=
  match r with Ok _ => true | Err _ => false end.

Definition rbind {A B} (r : Result A) (f : A -> Result B) : Result B :=
  match r with
  | Ok a => f a
  | Err e => Err e
  end.

(** The values that travel through the dictionaries of this program. *)
Inductive Value : Type :=
| VNone
| VInt (n : Z)
| VStr (s : string)
| VDict (d : gmap string Value).

Abbreviation Dict := (gmap string Value).

(** [str.isspace] on one character, for code points below 256. *)
Definition py_isspace (c : Ascii.ascii) : bool :=
  let n := Ascii.nat_of_ascii c in
  (((9 <=? n) && (n <=? 13)) || ((28 <=? n) && (n <=? 32))
   || (n =? 133) || (n =? 160))%nat.

Fixpoint lstrip (s : string) : string :=
  match s with
  | EmptyString => EmptyString
  | String c s' => if py_isspace c then lstrip s' else s
  end.

Definition rstrip (s : string) : string := String.rev (lstrip (String.rev s)).

(** [s.strip()] *)
Definition py_strip (s : string) : string := rstrip (lstrip s).

(** Truth value of a string: [not s] holds for the empty string only. *)
Definition str_truthy (s : string) : bool :=
  match s with EmptyString => false | String _ _ => true end.

(** Index normalisation of a slice bound against a sequence of length
    [len]: negative bounds count from the end, and all bounds are clamped
    to [0 .. len]. *)
Definition norm_index (len i : Z) : Z :=
  if i <? 0 then Z.max 0 (i + len) else Z.min i len.

(** [l[start:stop]] *)
Definition py_slice {A} (l : list A) (start stop : Z) : list A :=
  let len := Z.of_nat (length l) in
  let s := norm_index len start in
  let e := norm_index len stop in
  take (Z.to_nat (e - s)) (drop (Z.to_nat s) l).

(** [l[i]], with Python's negative indices and [IndexError]. *)
Definition py_index {A} (l : list A) (i : Z) : Result A :=
  let len := Z.of_nat (length l) in
  let j := if i <? 0 then i + len else i in
  if (j <? 0) || (len <=? j) then Err (IndexError "list index out of range")
  else match l !! Z.to_nat j with
       | Some x => Ok x
       | None => Err (IndexError "list index out of range")
       end.

End py.
Export py.

Notation "x <-? r ;; k" := (rbind r (fun x => k))
  (at level 100, r at next level, right associativity).

(* ===================================================================== *)
(** * app/utils/chunking.py *)
(* ===================================================================== *)

Module chunking.

Definition Token := Z.

(** A tiktoken encoding object. [encode] raises on text holding a
    disallowed special token; [decode] is total. *)
Record Encoding : Type := {
  encode : string -> Result (list Token);
  decode : list Token -> string;
}.

Section WithTiktoken.

(** [tiktoken.get_encoding]: [None] stands for the [KeyError] of an
    unknown encoding name. *)
Variable get_encoding : string -> option Encoding.

(** The [while start_idx < len(tokens)] loop of [chunk_text]. *)
Equations? chunk_loop (encoding : Encoding) (tokens : list Token)
    (chunk_size step_size : Z) (Hstep : 0 < step_size)
    (start_idx : Z) (chunks : list string) : list string
    by wf (Z.to_nat (Z.of_nat (length tokens) - start_idx)) lt :=
  chunk_loop encoding tokens chunk_size step_size Hstep start_idx chunks :=
    match Z_lt_dec start_idx (Z.of_nat (length tokens)) with
    | left Hlt =>
        let end_idx := start_idx + chunk_size in
        let chunk_tokens := py_slice tokens start_idx end_idx in
        let chunk_text := decode encoding chunk_tokens in
        let chunks' := chunks ++ [chunk_text] in
        let start_idx' := start_idx + step_size in
        if Z.of_nat (length tokens) <=? end_idx then chunks'
        else chunk_loop encoding tokens chunk_size step_size Hstep
               start_idx' chunks'
    | right _ => chunks
    end.
Proof. lia. Qed.

Definition chunk_text (text : string) (chunk_size chunk_overlap : Z)
    (encoding_name : string) : Result (list string) :=
  if chunk_size <=? 0 then
    Err (ValueError "chunk_size must be greater than 0")
  else if chunk_overlap <? 0 then
    Err (ValueError "chunk_overlap must be non-negative")
  else
    match Z_lt_dec chunk_overlap chunk_size with
    | right _ => Err (ValueError "chunk_overlap must be less than chunk_size")
    | left Hov =>
        if negb (str_truthy (py_strip text)) then Ok []
        else
          match get_encoding encoding_name with
          | None =>
              Err (raise_from
                     (ValueError ("Invalid encoding name: " +:+ encoding_name))
                     (KeyError encoding_name))
          | Some encoding =>
              tokens <-? encode encoding text ;;
              if Z.of_nat (length tokens) <=? chunk_size then Ok [text]
              else
                let step_size := chunk_size - chunk_overlap in
                Ok (chunk_loop encoding tokens chunk_size step_size
                      (proj2 (Z.lt_0_sub chunk_overlap chunk_size) Hov) 0 [])
          end
    end.

End WithTiktoken.

(** Default arguments of [chunk_text]. *)
Definition default_chunk_size : Z := 512.
Definition default_chunk_overlap : Z := 50.
Definition default_encoding_name : string := "cl100k_base".

End chunking.

(* ===================================================================== *)
(** * app/services/vectorstores/faiss_store.py *)
(* ===================================================================== *)

Module faiss_store.

Definition Vector := list Q.

(** Largest finite float32, the distance faiss reports next to a [-1]
    label. *)
Definition FLT_MAX : Q := 340282346638528859811704183484516925440 # 1.

(** Squared Euclidean distance between two vectors of equal length. *)
Definition sq_l2 (x y : Vector) : Q :=
  fold_right Qplus (0 # 1) (zip_with (fun a b => (a - b) * (a - b))%Q x y).

(** Insertion of a (distance, label) pair into a list ascending by
    distance, before the first pair that is not closer. *)
Fixpoint insert_by_distance (p : Q * Z) (l : list (Q * Z)) : list (Q * Z) :=
  match l with
  | [] => [p]
  | q :: l' =>
      if Qle_bool (fst p) (fst q) then p :: q :: l'
      else q :: insert_by_distance p l'
  end.

Definition sort_by_distance (l : list (Q * Z)) : list (Q * Z) :=
  fold_right insert_by_distance [] l.

(** The distance from [query] to every stored vector, each with its
    position as label. *)
Definition scan (xb : list Vector) (query : Vector) : list (Q * Z) :=
  imap (fun i v => (sq_l2 query v, Z.of_nat i)) xb.

(** Modelled from the spec: [faiss.IndexFlatL2.search] belongs to the faiss
    library, not to this repository. It is an exhaustive scan: the exact
    squared Euclidean distance from the query to every stored vector, the
    [k] nearest in ascending order of distance (equal distances in order
    of position), padded with label [-1] when fewer than [k] vectors are
    stored. *)
Definition IndexFlatL2_search (xb : list Vector) (query : Vector) (k : Z)
    : list (Q * Z) :=
  let found := take (Z.to_nat k) (sort_by_distance (scan xb query)) in
  found ++ replicate (Z.to_nat k - length found)%nat (FLT_MAX, -1).

Record FAISSVectorStore : Type := {
  dimension : Z;
  index : list Vector;     (* the vectors held by [faiss.IndexFlatL2] *)
  metadata : list Dict;
}.

(** [self.index.ntotal] *)
Definition ntotal (self : FAISSVectorStore) : Z :=
  Z.of_nat (length (index self)).

Definition __init__ (dimension : Z) : Result FAISSVectorStore :=
  if dimension <=? 0 then Err (ValueError "Dimension must be a positive integer")
  else Ok {| dimension := dimension; index := []; metadata := [] |}.

(** The store together with the number of [uuid4()] calls made so far. *)
Record Runtime : Type := {
  vector_store : FAISSVectorStore;
  uuid_calls : nat;
}.

(** One entry of the list returned by [similarity_search]. *)
Record SearchResult : Type := {
  res_document_id : Value;
  res_metadata : Dict;
  res_distance : Q;
  res_score : Q;
}.

Section WithUuid.

(** [str(uuid4())] at its n-th call. *)
Variable uuid4 : nat -> string.

(** The dimension check of [add_documents], in order of position. *)
Fixpoint check_dimensions (dimension : Z) (i : Z) (embeddings : list Vector)
    : Result unit :=
  match embeddings with
  | [] => Ok tt
  | embedding :: rest =>
      if negb (Z.of_nat (length embedding) =? dimension) then
        Err (ValueError ("Embedding at index " +:+ pretty i
                         +:+ " has dimension "
                         +:+ pretty (Z.of_nat (length embedding))
                         +:+ ", expected " +:+ pretty dimension))
      else check_dimensions dimension (i + 1) rest
  end.

Definition add_documents (embeddings : list Vector) (metadata_in : list Dict)
    (rt : Runtime) : Result (list string) * Runtime :=
  let self := vector_store rt in
  if negb (length embeddings =? length metadata_in)%nat then
    (Err (ValueError
            ("Number of embeddings ("
             +:+ pretty (Z.of_nat (length embeddings))
             +:+ ") must match number of metadata entries ("
             +:+ pretty (Z.of_nat (length metadata_in)) +:+ ")")), rt)
  else if (length embeddings =? 0)%nat then
    (Err (ValueError "Cannot add empty list of documents"), rt)
  else
    match check_dimensions (dimension self) 0 embeddings with
    | Err e => (Err e, rt)
    | Ok _ =>
        let document_ids :=
          map (fun j => uuid4 (uuid_calls rt + j)%nat)
              (seq 0 (length embeddings)) in
        let enriched_metadata :=
          zip_with (fun (meta : Dict) doc_id =>
                      <["document_id" := VStr doc_id]> meta)
                   metadata_in document_ids in
        let self' :=
          {| dimension := dimension self;
             index := index self ++ embeddings;
             metadata := metadata self ++ enriched_metadata |} in
        (Ok document_ids,
         {| vector_store := self';
            uuid_calls := (uuid_calls rt + length embeddings)%nat |})
    end.

End WithUuid.

(** The result-building loop of [similarity_search] over the pairs
    returned by faiss. *)
Fixpoint build_results (metadata : list Dict) (found : list (Q * Z))
    : Result (list SearchResult) :=
  match found with
  | [] => Ok []
  | (distance, idx) :: rest =>
      if idx =? -1 then build_results metadata rest
      else
        meta <-? py_index metadata idx ;;
        match meta !! "document_id" with
        | None => Err (KeyError "document_id")
        | Some doc_id =>
            let result :=
              {| res_document_id := doc_id;
                 res_metadata := meta;
                 res_distance := distance;
                 res_score := (1 / (1 + distance))%Q |} in
            results <-? build_results metadata rest ;;
            Ok (result :: results)
        end
  end.

Definition similarity_search (self : FAISSVectorStore)
    (query_embedding : Vector) (k : Z) : Result (list SearchResult) :=
  if ntotal self =? 0 then Err (ValueError "Cannot search empty index")
  else if k <=? 0 then Err (ValueError "k must be a positive integer")
  else if negb (Z.of_nat (length query_embedding) =? dimension self) then
    Err (ValueError ("Query embedding has dimension "
                     +:+ pretty (Z.of_nat (length query_embedding))
                     +:+ ", expected " +:+ pretty (dimension self)))
  else
    let k := Z.min k (ntotal self) in
    let found := IndexFlatL2_search (index self) query_embedding k in
    build_results (metadata self) found.

Definition get_document_count (self : FAISSVectorStore) : Z := ntotal self.

Definition is_empty (self : FAISSVectorStore) : bool := ntotal self =? 0.

End faiss_store.

(* ===================================================================== *)
(** * app/services/embeddings/embedding_service.py *)
(* ===================================================================== *)

Module embedding_service.
Import faiss_store.

Section WithOpenAI.

(** [self.client.embeddings.create(model=..., input=texts)], projected to
    the list of returned vectors. *)
Variable embeddings_create : list Value -> Result (list Vector).

Definition generate_embeddings (texts : list Value) : Result (list Vector) :=
  if (length texts =? 0)%nat then
    Err (ValueError "Cannot generate embeddings for empty text list")
  else
    match embeddings_create texts with
    | Ok embeddings => Ok embeddings
    | Err e =>
        Err (raise_from
               (Exception ("Error generating embeddings: " +:+ str_exn e)) e)
    end.

End WithOpenAI.

End embedding_service.

(* ===================================================================== *)
(** * app/services/ingestion/ingestion_pipeline.py *)
(* ===================================================================== *)

Module ingestion_pipeline.
Import chunking faiss_store embedding_service.

Record IngestionPipeline : Type := {
  chunk_size : Z;
  chunk_overlap : Z;
}.

(** Default construction: [chunk_size=512], [chunk_overlap=50]. *)
Definition default_pipeline : IngestionPipeline :=
  {| chunk_size := default_chunk_size; chunk_overlap := default_chunk_overlap |}.

(** The statistics dictionary returned by [ingest_document]. *)
Record Statistics : Type := {
  stat_document_id : string;
  chunks_created : Z;
  embeddings_generated : Z;
  chunks_stored : Z;
  text_length : Z;
}.

(** Truth value of a dictionary: empty is false. *)
Definition dict_truthy (d : Dict) : bool := negb (size d =? 0)%nat.

Section WithServices.

Variable get_encoding : string -> option Encoding.
Variable uuid4 : nat -> string.
Variable embeddings_create : list Value -> Result (list Vector).
(** [TextExtractionService.extract_text(file_path, content_type)] *)
Variable extract_text : string -> string -> Result string.

(** The metadata attached to chunk [i]. *)
Definition chunk_metadata (document_id file_path content_type : string)
    (additional_metadata : option Dict) (i : Z) (chunk_text_content : string)
    : Dict :=
  let chunk_metadata : Dict :=
    <["file_path" := VStr file_path]>
      (<["content_type" := VStr content_type]>
         (<["text" := VStr chunk_text_content]>
            (<["chunk_index" := VInt i]>
               {["document_id" := VStr document_id]}))) in
  match additional_metadata with
  | Some extra =>
      if dict_truthy extra then extra ∪ chunk_metadata else chunk_metadata
  | None => chunk_metadata
  end.

Definition ingest_document (self : IngestionPipeline)
    (document_id file_path content_type : string)
    (additional_metadata : option Dict) (rt : Runtime)
    : Result Statistics * Runtime :=
  match extract_text file_path content_type with
  | Err e => (Err e, rt)
  | Ok extracted_text =>
      let text_length := Z.of_nat (String.length extracted_text) in
      match chunk_text get_encoding extracted_text (chunk_size self)
              (chunk_overlap self) default_encoding_name with
      | Err e => (Err e, rt)
      | Ok text_chunks =>
          let chunks_created := Z.of_nat (length text_chunks) in
          if chunks_created =? 0 then
            (Ok {| stat_document_id := document_id;
                   chunks_created := 0;
                   embeddings_generated := 0;
                   chunks_stored := 0;
                   text_length := text_length |}, rt)
          else
            match generate_embeddings embeddings_create
                    (VStr <$> text_chunks) with
            | Err e => (Err e, rt)
            | Ok embeddings =>
                let embeddings_generated := Z.of_nat (length embeddings) in
                let metadata_list :=
                  imap (fun i c =>
                          chunk_metadata document_id file_path content_type
                            additional_metadata (Z.of_nat i) c)
                       text_chunks in
                match add_documents uuid4 embeddings metadata_list rt with
                | (Err e, rt') => (Err e, rt')
                | (Ok chunk_ids, rt') =>
                    (Ok {| stat_document_id := document_id;
                           chunks_created := chunks_created;
                           embeddings_generated := embeddings_generated;
                           chunks_stored := Z.of_nat (length chunk_ids);
                           text_length := text_length |}, rt')
                end
            end
      end
  end.

End WithServices.

End ingestion_pipeline.

(* ===================================================================== *)
(** * app/agents/document_understanding.py *)
(* ===================================================================== *)

Module document_understanding.
Import faiss_store embedding_service.

Definition default_query : string :=
  "What are the business goals, systems, data assets, and constraints mentioned in this document?".

Definition no_context_content : string :=
  "No relevant context found in the uploaded documents to perform a business architecture assessment.".

Definition no_context_warning : string :=
  "No relevant context found in vector store.".

(** The dictionary returned when no context was retrieved. *)
Definition no_context_found : Dict :=
  <["warning" := VStr no_context_warning]>
    {["content" := VStr no_context_content]}.

Definition newline : string := String (Ascii.ascii_of_nat 10) EmptyString.

(** [sep.join(parts)] *)
Fixpoint join (sep : string) (parts : list string) : string :=
  match parts with
  | [] => EmptyString
  | [p] => p
  | p :: rest => p +:+ sep +:+ join sep rest
  end.

Section WithServices.

Variable embeddings_create : list Value -> Result (list Vector).
(** [BaseAgent._call_llm(user_message)] with the agent's prompt, model and
    temperature. *)
Variable _call_llm : string -> Result string.
(** The text a value takes inside an f-string. *)
Variable format_value : Value -> string.

Definition context_part (i : nat) (res : SearchResult) : string :=
  let text := default (VStr EmptyString) (res_metadata res !! "text") in
  "--- Context Chunk " +:+ pretty (Z.of_nat i + 1) +:+ " ---" +:+ newline
  +:+ format_value text.

Definition _process (vector_store : FAISSVectorStore) (input_data : Dict)
    : Result Dict :=
  let query := default (VStr default_query) (input_data !! "query") in
  let k := default (VInt 5) (input_data !! "k") in
  embeddings <-? generate_embeddings embeddings_create [query] ;;
  query_embedding <-? py_index embeddings 0 ;;
  results <-?
    match k with
    | VInt k => similarity_search vector_store query_embedding k
    | _ =>
        (* the emptiness test precedes the comparison [k <= 0], which
           raises on a [k] that is not a number *)
        if ntotal vector_store =? 0 then
          Err (ValueError "Cannot search empty index")
        else Err (TypeError "'<=' not supported between these operands")
    end ;;
  let context_parts := imap context_part results in
  let context := join (newline +:+ newline) context_parts in
  if negb (str_truthy context) then Ok no_context_found
  else
    let user_message :=
      "DOCUMENT CONTEXT:" +:+ newline +:+ newline +:+ context
      +:+ newline +:+ newline
      +:+ "Based on the above context, provide a comprehensive Current State Assessment for the Statement of Work." in
    response <-? _call_llm user_message ;;
    Ok {["content" := VStr response]}.

(** [BaseAgent.execute]: logs, calls [_process], re-raises its errors. *)
Definition execute (vector_store : FAISSVectorStore) (input_data : Dict)
    : Result Dict :=
  _process vector_store input_data.

End WithServices.

End document_understanding.

(* ===================================================================== *)
(** * app/agents/orchestrator.py *)
(* ===================================================================== *)

Module orchestrator.

Inductive ExecutionState : Type :=
| PENDING | RUNNING | SUCCESS | FAILED | RETRYING.

(** [ExecutionState.X.value] *)
Definition state_value (s : ExecutionState) : string :=
  match s with
  | PENDING => "pending"
  | RUNNING => "running"
  | SUCCESS => "success"
  | FAILED => "failed"
  | RETRYING => "retrying"
  end.

#[global] Instance ExecutionState_eq_dec : EqDecision ExecutionState.
Proof. solve_decision. Defined.

(** What the orchestrator does to the outside, in order. *)
Inductive Event : Type :=
| EvExecute (step_name : string) (attempt : Z)   (* step.agent.execute(...) *)
| EvSleep (seconds : Q)                          (* time.sleep(...) *)
| EvOnFailure (step_name : string).              (* step.on_failure(...) *)

(** One dictionary of [self.execution_log]. The field [state] stands for
    the stored [ExecutionState.X.value]. *)
Record StepLog : Type := {
  step_name : string;
  step_index : Z;
  state : ExecutionState;
  input : Dict;
  output : option Dict;
  error : option string;
  attempts : Z;
}.

Definition set_state (s : ExecutionState) (l : StepLog) : StepLog :=
  {| step_name := step_name l; step_index := step_index l; state := s;
     input := input l; output := output l; error := error l;
     attempts := attempts l |}.

Definition set_output (o : option Dict) (l : StepLog) : StepLog :=
  {| step_name := step_name l; step_index := step_index l; state := state l;
     input := input l; output := o; error := error l;
     attempts := attempts l |}.

Definition set_error (e : option string) (l : StepLog) : StepLog :=
  {| step_name := step_name l; step_index := step_index l; state := state l;
     input := input l; output := output l; error := e;
     attempts := attempts l |}.

Section WithWorld.

(** The state of everything outside the orchestrator that agents and
    failure handlers read and change. *)
Context {W : Type}.

(** [agent.execute(input_data)]: an output dictionary or an exception.
    Agents read their input and do not mutate it. *)
Definition Agent : Type := Dict -> W -> Result Dict * W.

(** [on_failure(input_data, error)] *)
Definition FailureHandler : Type := Dict -> Exn -> W -> Result Dict * W.

Record OrchestratorStep : Type := {
  name : string;
  agent : Agent;
  retries : Z;
  retry_delay : Q;
  on_failure : option FailureHandler;
}.

(** The running process: the outside world, the trace of what was done to
    it, and [self.execution_log]. *)
Record Machine : Type := {
  world : W;
  trace : list Event;
  execution_log : list StepLog;
}.

Definition M (A : Type) : Type := Machine -> Result A * Machine.

Definition ret {A} (a : A) : M A := fun m => (Ok a, m).

Definition raise {A} (e : Exn) : M A := fun m => (Err e, m).

Definition bind {A B} (c : M A) (f : A -> M B) : M B :=
  fun m =>
    match c m with
    | (Ok a, m') => f a m'
    | (Err e, m') => (Err e, m')
    end.

(** [try: c  except Exception as e: handler e] *)
Definition try_except {A} (c : M A) (handler : Exn -> M A) : M A :=
  fun m =>
    match c m with
    | (Ok a, m') => (Ok a, m')
    | (Err e, m') => handler e m'
    end.

Definition record_event (ev : Event) (m : Machine) : Machine :=
  {| world := world m; trace := trace m ++ [ev];
     execution_log := execution_log m |}.

Definition with_world (w : W) (m : Machine) : Machine :=
  {| world := w; trace := trace m; execution_log := execution_log m |}.

(** [self.execution_log.append(step_log)] *)
Definition append_log (step_log : StepLog) (m : Machine) : Machine :=
  {| world := world m; trace := trace m;
     execution_log := execution_log m ++ [step_log] |}.

(** [step.agent.execute(input_data)] *)
Definition agent_execute (step : OrchestratorStep) (input_data : Dict)
    (attempt : Z) : M Dict :=
  fun m =>
    let '(r, w) := agent step input_data (world m) in
    (r, with_world w (record_event (EvExecute (name step) attempt) m)).

(** [time.sleep(seconds)]: blocks, and raises on a negative argument. *)
Definition time_sleep (seconds : Q) : M unit :=
  fun m =>
    if Qle_bool 0 seconds then (Ok tt, record_event (EvSleep seconds) m)
    else (Err (ValueError "sleep length must be non-negative"), m).

(** [step.on_failure(input_data, e)] *)
Definition call_on_failure (step : OrchestratorStep) (h : FailureHandler)
    (input_data : Dict) (e : Exn) : M Dict :=
  fun m =>
    let '(r, w) := h input_data e (world m) in
    (r, with_world w (record_event (EvOnFailure (name step)) m)).

(** The retry is a recursive call made inside the [except] block, so an
    exception that leaves a later attempt is not caught by an earlier one.
    The recursion terminates because [retries - attempt] decreases; the
    interpreter's bound on the recursion depth is not part of the model. *)
Equations? _execute_step (step : OrchestratorStep) (input_data : Dict)
    (attempt : Z) : M Dict
    by wf (Z.to_nat (retries step - attempt)) lt :=
  _execute_step step input_data attempt :=
    try_except (agent_execute step input_data attempt)
      (fun e =>
         match Z_lt_dec attempt (retries step) with
         | left Hretry =>
             bind (time_sleep (retry_delay step))
               (fun _ => _execute_step step input_data (attempt + 1))
         | right _ =>
             match on_failure step with
             | Some handler =>
                 try_except (call_on_failure step handler input_data e)
                   (fun handler_error => raise (raise_from handler_error e))
             | None => raise e
             end
         end).
Proof. lia. Qed.

(** The body of the [for i, step in enumerate(self.steps)] loop. The
    dictionary [step_log] is local until it is appended and is not changed
    after its first append, so the two appends of the failure path put
    the same, final dictionary into the log twice. *)
Definition run_step (i : Z) (step : OrchestratorStep) (cumulative_data : Dict)
    : M Dict :=
  fun m =>
    let step_log :=
      {| step_name := name step; step_index := i; state := PENDING;
         input := cumulative_data; output := None; error := None;
         attempts := 0 |} in
    (* try: *)
    let step_log := set_state RUNNING step_log in
    match _execute_step step cumulative_data 0 m with
    | (Ok output, m1) =>
        let step_log := set_state SUCCESS step_log in
        let step_log := set_output (Some output) step_log in
        let cumulative_data := <[name step := VDict output]> cumulative_data in
        (* finally: *)
        (Ok cumulative_data, append_log step_log m1)
    | (Err e, m1) =>
        (* except Exception as e: *)
        let step_log := set_state FAILED step_log in
        let step_log := set_error (Some (str_exn e)) step_log in
        let m2 := append_log step_log m1 in
        (* raise, through finally: *)
        (Err e, append_log step_log m2)
    end.

Fixpoint run_steps (i : Z) (steps : list OrchestratorStep)
    (cumulative_data : Dict) : M Dict :=
  match steps with
  | [] => ret cumulative_data
  | step :: rest =>
      bind (run_step i step cumulative_data) (run_steps (i + 1) rest)
  end.

Record Orchestrator : Type := {
  steps : list OrchestratorStep;
}.

Definition __init__ (steps : list OrchestratorStep) : Result Orchestrator :=
  match steps with
  | [] => Err (ValueError "Orchestrator must have at least one step")
  | _ => Ok {| steps := steps |}
  end.

Definition execute (self : Orchestrator) (initial_input : Dict) : M Dict :=
  fun m =>
    let m0 := {| world := world m; trace := trace m; execution_log := [] |} in
    let cumulative_data := initial_input in
    run_steps 0 (steps self) cumulative_data m0.

Definition get_execution_log (m : Machine) : list StepLog := execution_log m.

Definition get_failed_steps (m : Machine) : list string :=
  step_name <$> filter (fun log => state log = FAILED) (execution_log m).

Definition get_successful_steps (m : Machine) : list string :=
  step_name <$> filter (fun log => state log = SUCCESS) (execution_log m).

(** A process that has done nothing yet. *)
Definition boot (w : W) : Machine :=
  {| world := w; trace := []; execution_log := [] |}.

End WithWorld.

Arguments Agent W : clear implicits.
Arguments FailureHandler W : clear implicits.
Arguments OrchestratorStep W : clear implicits.
Arguments Orchestrator W : clear implicits.
Arguments Machine W : clear implicits.

(** Reading the trace. *)
Definition is_execute_of (step_name : string) (ev : Event) : bool :=
  match ev with
  | EvExecute n _ => bool_decide (n = step_name)
  | _ => false
  end.

Definition is_sleep (ev : Event) : bool :=
  match ev with EvSleep _ => true | _ => false end.

(** How many times the agent of the step named [step_name] was invoked. *)
Definition invocations (step_name : string) (t : list Event) : nat :=
  length (List.filter (is_execute_of step_name) t).

Definition sleeps (t : list Event) : nat :=
  length (List.filter is_sleep t).

End orchestrator.

(* ===================================================================== *)
(** * app/services/extraction/text_extraction.py *)
(* ===================================================================== *)

Module text_extraction.

Definition bytes := list Byte.byte.

Definition SUPPORTED_FORMATS : list string :=
  ["application/pdf"; "text/plain"].

(** [UnsupportedFileFormatError(content_type)] with its default message. *)
Definition UnsupportedFileFormatError (content_type : string) : Exn :=
  MkExn "UnsupportedFileFormatError"
    ("Unsupported file format: " +:+ content_type
     +:+ ". Supported formats: application/pdf, text/plain") None.

Definition FileNotFoundError (msg : string) : Exn :=
  MkExn "FileNotFoundError" msg None.

Definition IOError (msg : string) : Exn := MkExn "OSError" msg None.

Section WithFiles.

(** [file_path.exists()] *)
Variable path_exists : string -> bool.
(** [open(file_path, "rb").read()]; an error is the [IOError] raised. *)
Variable open_read : string -> Result bytes.
(** [PdfReader(io.BytesIO(content)).pages], each page with the outcome of
    its [extract_text()]; an error is what [PdfReader] raised. *)
Variable pdf_pages : bytes -> Result (list (Result string)).
(** [content.decode("utf-8")]; an error is the [UnicodeDecodeError]. *)
Variable utf8_decode : bytes -> Result string.

Definition _read_file_content (file_path : string) : Result bytes :=
  if negb (path_exists file_path) then
    Err (FileNotFoundError ("File not found: " +:+ file_path))
  else
    match open_read file_path with
    | Ok content => Ok content
    | Err e =>
        Err (raise_from
               (IOError ("Error reading file " +:+ file_path +:+ ": "
                         +:+ str_exn e)) e)
    end.

(** The loop over [reader.pages]: pages without text are skipped. *)
Fixpoint collect_pages (pages : list (Result string)) : Result (list string) :=
  match pages with
  | [] => Ok []
  | page :: rest =>
      page_text <-? page ;;
      text_parts <-? collect_pages rest ;;
      Ok (if str_truthy page_text then page_text :: text_parts
          else text_parts)
  end.

Definition _extract_from_pdf (file_content : bytes) : Result string :=
  match (pages <-? pdf_pages file_content ;;
         text_parts <-? collect_pages pages ;;
         Ok (document_understanding.join document_understanding.newline
               text_parts)) with
  | Ok text => Ok text
  | Err e =>
      Err (raise_from
             (ValueError ("Error extracting text from PDF: " +:+ str_exn e)) e)
  end.

Definition _extract_from_txt (file_content : bytes) : Result string :=
  match utf8_decode file_content with
  | Ok text => Ok text
  | Err e =>
      Err (raise_from
             (ValueError ("Error decoding text file as UTF-8: " +:+ str_exn e))
             e)
  end.

Definition extract_text (file_path content_type : string) : Result string :=
  if negb (bool_decide (content_type ∈ SUPPORTED_FORMATS)) then
    Err (UnsupportedFileFormatError content_type)
  else
    file_content <-? _read_file_content file_path ;;
    if String.eqb content_type "application/pdf" then
      _extract_from_pdf file_content
    else if String.eqb content_type "text/plain" then
      _extract_from_txt file_content
    else Err (UnsupportedFileFormatError content_type).

End WithFiles.

End text_extraction.

(* ===================================================================== *)
(** * app/services/llm/groq.py *)
(* ===================================================================== *)

Module groq.

Record Message : Type := {
  role : string;
  content : string;
}.

(** The keyword arguments of [chat.completions.create]; an absent key is
    [None]. *)
Record Request : Type := {
  req_model : string;
  req_messages : list Message;
  req_temperature : option Q;
  req_max_tokens : option Z;
}.

(** [response.choices], each choice with its [message.content]. *)
Definition Response := list (option string).

Section WithClient.

(** [self.client.chat.completions.create], called with the request
    parameters as keyword arguments. *)
Variable chat_completions_create : Request -> Result Response.

Definition generate_response (user_message : string)
    (system_message : option string) (model : string)
    (temperature : option Q) (max_tokens : option Z) : Result string :=
  let messages : list Message :=
    match system_message with
    | Some system_message =>
        if str_truthy system_message then
          [{| role := "system"; content := system_message |}]
        else []
    | None => []
    end in
  let messages := messages ++ [{| role := "user"; content := user_message |}] in
  let request_params :=
    {| req_model := model; req_messages := messages;
       req_temperature := temperature; req_max_tokens := max_tokens |} in
  response <-? chat_completions_create request_params ;;
  match response with
  | [] => Err (ValueError "Invalid response from Groq API: empty content")
  | first :: _ =>
      match first with
      | Some text =>
          if str_truthy text then Ok text
          else Err (ValueError "Invalid response from Groq API: empty content")
      | None => Err (ValueError "Invalid response from Groq API: empty content")
      end
  end.

End WithClient.

Definition default_model : string := "llama-3.1-8b-instant".

End groq.

(* ===================================================================== *)
(** * app/agents/base_agent.py and the generation agents *)
(* ===================================================================== *)

Module base_agent.
Import groq.

Record BaseAgent : Type := {
  system_prompt : string;
  model : string;
  temperature : Q;
}.

Definition AttributeError (msg : string) : Exn :=
  MkExn "AttributeError" msg None.

(** [type(v).__name__] *)
Definition type_name (v : Value) : string :=
  match v with
  | VNone => "NoneType"
  | VInt _ => "int"
  | VStr _ => "str"
  | VDict _ => "dict"
  end.

(** [v.get(key, default)]: only a dictionary has [get]. *)
Definition value_get (v : Value) (key : string) (default_value : Value)
    : Result Value :=
  match v with
  | VDict d => Ok (default default_value (d !! key))
  | _ =>
      Err (AttributeError ("'" +:+ type_name v
                           +:+ "' object has no attribute 'get'"))
  end.

Section WithClient.

Variable chat_completions_create : Request -> Result Response.

Definition _call_llm (self : BaseAgent) (user_message : string)
    : Result string :=
  generate_response chat_completions_create user_message
    (Some (system_prompt self)) (model self) (Some (temperature self)) None.

(** [BaseAgent.execute]: logs the input and the output (every [Value]
    is serialisable by [json.dumps]), calls [_process] and re-raises its
    errors. *)
Definition execute (_process : Dict -> Result Dict) (input_data : Dict)
    : Result Dict :=
  _process input_data.

End WithClient.

End base_agent.

Module use_case_discovery.
Import groq base_agent.

Section WithClient.

Variable chat_completions_create : Request -> Result Response.
(** The text a value takes inside an f-string. *)
Variable format_value : Value -> string.

Definition default_temperature : Q := 2 # 10.

Definition _process (self : BaseAgent) (input_data : Dict) : Result Dict :=
  let context_data := default (VDict input_data) (input_data !! "understand") in
  current_state <-?
    value_get context_data "content"
      (VStr "No current state assessment provided.") ;;
  let user_message :=
    "
        ### CURRENT STATE ASSESSMENT:
        "
    +:+ format_value current_state
    +:+ "
        
        Based on this assessment, propose several AI use cases and provide a final strategic recommendation for the Statement of Work.
        " in
  response <-? _call_llm chat_completions_create self user_message ;;
  Ok {["content" := VStr response]}.

End WithClient.

End use_case_discovery.

Module solution_architecture.
Import groq base_agent.

Section WithClient.

Variable chat_completions_create : Request -> Result Response.
Variable format_value : Value -> string.

Definition default_temperature : Q := 2 # 10.

Definition _process (self : BaseAgent) (input_data : Dict) : Result Dict :=
  let current_state_data := default (VDict ∅) (input_data !! "understand") in
  let recommendation_data := default (VDict ∅) (input_data !! "discover") in
  current_state <-?
    value_get current_state_data "content"
      (VStr "No current state assessment provided.") ;;
  recommendation <-?
    value_get recommendation_data "content"
      (VStr "No strategic recommendation provided.") ;;
  let user_message :=
    "
        ### CURRENT STATE ASSESSMENT:
        "
    +:+ format_value current_state
    +:+ "
        
        ### STRATEGIC RECOMMENDATION:
        "
    +:+ format_value recommendation
    +:+ "
        
        Design a complete enterprise AI solution architecture based on this information for the Statement of Work.
        " in
  response <-? _call_llm chat_completions_create self user_message ;;
  Ok {["content" := VStr response]}.

End WithClient.

End solution_architecture.

Module governance.
Import groq base_agent.

Section WithClient.

Variable chat_completions_create : Request -> Result Response.
Variable format_value : Value -> string.

Definition default_temperature : Q := 0 # 1.

Definition _process (self : BaseAgent) (input_data : Dict) : Result Dict :=
  let current_state_data := default (VDict ∅) (input_data !! "understand") in
  let architecture_data := default (VDict ∅) (input_data !! "architect") in
  current_state <-?
    value_get current_state_data "content"
      (VStr "No current state assessment provided.") ;;
  architecture <-?
    value_get architecture_data "content"
      (VStr "No solution architecture provided.") ;;
  let user_message :=
    "
        ### CURRENT STATE ASSESSMENT & CONSTRAINTS:
        "
    +:+ format_value current_state
    +:+ "
        
        ### PROPOSED SOLUTION ARCHITECTURE:
        "
    +:+ format_value architecture
    +:+ "
        
        Perform a strict governance audit for the Statement of Work. Validate the architecture and provide a risk assessment.
        " in
  response <-? _call_llm chat_completions_create self user_message ;;
  Ok {["content" := VStr response]}.

End WithClient.

End governance.

Module blueprint_synthesizer.
Import groq base_agent.

Section WithClient.

Variable chat_completions_create : Request -> Result Response.
Variable format_value : Value -> string.

Definition default_temperature : Q := 3 # 10.

Definition _process (self : BaseAgent) (input_data : Dict) : Result Dict :=
  understanding <-?
    value_get (default (VDict ∅) (input_data !! "understand")) "content"
      (VStr "N/A") ;;
  discovery <-?
    value_get (default (VDict ∅) (input_data !! "discover")) "content"
      (VStr "N/A") ;;
  architecture <-?
    value_get (default (VDict ∅) (input_data !! "architect")) "content"
      (VStr "N/A") ;;
  governance <-?
    value_get (default (VDict ∅) (input_data !! "govern")) "content"
      (VStr "N/A") ;;
  let user_message :=
    "
        Synthesize the following sections into a final Proposal Statement of Work (SOW) for a GenAI Implementation.
        
        ### Formatting Instructions:
        1. Use **bold** for emphasis.
        2. Use # for main headers and ## for subheaders.
        3. Use bullet points for lists.
        4. Ensure logical flow and a professional consulting tone.
        5. DO NOT use other markdown features like tables or code blocks unless absolutely necessary for the Mermaid diagram.

        ### CURRENT STATE ASSESSMENT:
        "
    +:+ format_value understanding
    +:+ "

        ### STRATEGIC RECOMMENDATION:
        "
    +:+ format_value discovery
    +:+ "

        ### TECHNICAL DESIGN:
        "
    +:+ format_value architecture
    +:+ "

        ### GOVERNANCE & RISK:
        "
    +:+ format_value governance
    +:+ "
        
        Produce the final synthesized Proposal SOW.
        " in
  response <-? _call_llm chat_completions_create self user_message ;;
  Ok {["content" := VStr response]}.

End WithClient.

End blueprint_synthesizer.

(* ===================================================================== *)
(** * app/core/services.py *)
(* ===================================================================== *)

Module services.
Import orchestrator faiss_store groq base_agent.

Section WithProviders.

(** The world of an orchestrated run is the number of agent invocations
    made so far; the completion service may answer differently at each
    of them. *)
Variable chat_completions_create : nat -> Request -> Result Response.
Variable embeddings_create : list Value -> Result (list Vector).
Variable format_value : Value -> string.
(** The system prompts of the five agents. *)
Variable understanding_prompt discovery_prompt architecture_prompt
         governance_prompt synthesizer_prompt : string.

Definition understanding_agent : BaseAgent :=
  {| system_prompt := understanding_prompt; model := default_model;
     temperature := 1 # 10 |}.

Definition discovery_agent : BaseAgent :=
  {| system_prompt := discovery_prompt; model := default_model;
     temperature := use_case_discovery.default_temperature |}.

Definition architecture_agent : BaseAgent :=
  {| system_prompt := architecture_prompt; model := default_model;
     temperature := solution_architecture.default_temperature |}.

Definition governance_agent : BaseAgent :=
  {| system_prompt := governance_prompt; model := default_model;
     temperature := governance.default_temperature |}.

Definition synthesizer_agent : BaseAgent :=
  {| system_prompt := synthesizer_prompt; model := default_model;
     temperature := blueprint_synthesizer.default_temperature |}.

(** An agent object as a step's [agent.execute]: one invocation, which
    advances the world by one. *)
Definition as_agent
    (_process : (Request -> Result Response) -> Dict -> Result Dict)
    : Agent nat :=
  fun input_data calls =>
    (base_agent.execute (_process (chat_completions_create calls)) input_data,
     S calls).

(** [create_blueprint_orchestrator()], over the shared [vector_store] as
    it is when the run starts. *)
Definition blueprint_steps (vector_store : FAISSVectorStore)
    : list (OrchestratorStep nat) :=
  [ {| name := "understand";
       agent :=
         as_agent (fun client =>
                     document_understanding._process embeddings_create
                       (_call_llm client understanding_agent) format_value
                       vector_store);
       retries := 1; retry_delay := 1; on_failure := None |};
    {| name := "discover";
       agent :=
         as_agent (fun client =>
                     use_case_discovery._process client format_value
                       discovery_agent);
       retries := 1; retry_delay := 1; on_failure := None |};
    {| name := "architect";
       agent :=
         as_agent (fun client =>
                     solution_architecture._process client format_value
                       architecture_agent);
       retries := 1; retry_delay := 1; on_failure := None |};
    {| name := "govern";
       agent :=
         as_agent (fun client =>
                     governance._process client format_value governance_agent);
       retries := 1; retry_delay := 1; on_failure := None |};
    {| name := "synthesize";
       agent :=
         as_agent (fun client =>
                     blueprint_synthesizer._process client format_value
                       synthesizer_agent);
       retries := 1; retry_delay := 1; on_failure := None |} ].

Definition create_blueprint_orchestrator (vector_store : FAISSVectorStore)
    : Result (Orchestrator nat) :=
  orchestrator.__init__ (blueprint_steps vector_store).

End WithProviders.

End services.

(* ===================================================================== *)
(** * Vocabulary of the properties *)
(* ===================================================================== *)

Section OrchestratorVocabulary.
Import orchestrator.

Context {W : Type}.


(** The agent raises on each of its next [n + 1] invocations on
    [input_data], starting in world [w]; the result is the last exception
    and the world it leaves. *)
Fixpoint fails_for (a : Agent W) (input_data : Dict) (n : nat) (w : W)
    : option (Exn * W) :=
  match a input_data w with
  | (Ok _, _) => None
  | (Err e, w') =>
      match n with
      | O => Some (e, w')
      | S n' => fails_for a input_data n' w'
      end
  end.

(** The events of [n + 1] failing attempts that start at [attempt]: every
    attempt after the first comes right after a sleep of [delay]. *)
Fixpoint retry_trace (step_name : string) (delay : Q) (attempt : Z) (n : nat)
    : list Event :=
  match n with
  | O => [EvExecute step_name attempt]
  | S n' =>
      EvExecute step_name attempt :: EvSleep delay
        :: retry_trace step_name delay (attempt + 1) n'
  end.

Definition add_events (t : list Event) (m : Machine W) : Machine W :=
  {| world := world m; trace := trace m ++ t;
     execution_log := execution_log m |}.

(** [self.execution_log = []] *)
Definition reset_log (m : Machine W) : Machine W :=
  {| world := world m; trace := trace m; execution_log := [] |}.

(** What [_execute_step] does once no retry is left and the last attempt
    raised [e]. *)
Definition exhausted (step : OrchestratorStep W) (input_data : Dict)
    (e : Exn) : M Dict :=
  match on_failure step with
  | Some handler =>
      try_except (call_on_failure step handler input_data e)
        (fun handler_error => raise (raise_from handler_error e))
  | None => raise e
  end.

(** The events of a step's failure path. *)
Definition failure_events (step : OrchestratorStep W) : list Event :=
  match on_failure step with
  | Some _ => [EvOnFailure (name step)]
  | None => []
  end.

(** The log entry of a step that ended in [SUCCESS] with [out]. *)
Definition success_entry (step : OrchestratorStep W) (i : Z)
    (cumulative_data out : Dict) : StepLog :=
  {| step_name := name step; step_index := i; state := SUCCESS;
     input := cumulative_data; output := Some out; error := None;
     attempts := 0 |}.

(** The log entry of a step that ended in [FAILED] with [e]. *)
Definition failed_entry (step : OrchestratorStep W) (i : Z)
    (cumulative_data : Dict) (e : Exn) : StepLog :=
  {| step_name := name step; step_index := i; state := FAILED;
     input := cumulative_data; output := None; error := Some (str_exn e);
     attempts := 0 |}.

(** The machine a step leaves after its [n + 1] failing attempts and the
    call of its failure handler, which left the world in [w]. *)
Definition after_handler (step : OrchestratorStep W) (n : nat) (w : W)
    (m : Machine W) : Machine W :=
  with_world w
    (add_events (retry_trace (name step) (retry_delay step) 0 n
                 ++ [EvOnFailure (name step)]) m).

End OrchestratorVocabulary.

Section StoreVocabulary.
Import faiss_store.

(** The lock-step invariant of the store: one metadata dictionary per
    stored vector, each holding a ["document_id"]. *)
Definition store_ok (self : FAISSVectorStore) : bool :=
  (length (metadata self) =? length (index self))%nat
  && forallb (fun meta : Dict =>
                match meta !! "document_id" with
                | Some _ => true
                | None => false
                end) (metadata self).


(** The search result built for the record stored at [position]. *)
Definition record_at (self : FAISSVectorStore) (query : Vector)
    (position : nat) : option SearchResult :=
  match index self !! position, metadata self !! position with
  | Some v, Some meta =>
      match meta !! "document_id" with
      | Some doc_id =>
          Some {| res_document_id := doc_id;
                  res_metadata := meta;
                  res_distance := sq_l2 query v;
                  res_score := (1 / (1 + sq_l2 query v))%Q |}
      | None => None
      end
  | _, _ => None
  end.

End StoreVocabulary.

Section ChunkingVocabulary.

Fixpoint whitespace_only (s : string) : bool :=
  match s with
  | EmptyString => true
  | String c s' => py_isspace c && whitespace_only s'
  end.

(** [chunk_size > 0] and [0 <= chunk_overlap < chunk_size]. *)
Definition valid_chunking (chunk_size chunk_overlap : Z) : Prop :=
  0 < chunk_size /\ 0 <= chunk_overlap < chunk_size.

(** The tokens of window number [i]. *)
Definition window (tokens : list chunking.Token)
    (chunk_size chunk_overlap : Z) (i : nat) : list chunking.Token :=
  let step_size := chunk_size - chunk_overlap in
  py_slice tokens (Z.of_nat i * step_size) (Z.of_nat i * step_size + chunk_size).

End ChunkingVocabulary.

(* ===================================================================== *)
(** * Concrete runs *)
(* ===================================================================== *)

Module fixtures.
Import orchestrator chunking faiss_store.

(** An agent that raises [Exception(msg)] at every call. *)
Definition failing_agent (msg : string) : Agent unit :=
  fun _ w => (Err (Exception msg), w).

(** An agent that returns [out] at every call. *)
Definition constant_agent (out : Dict) : Agent unit :=
  fun _ w => (Ok out, w).

(** [lambda input_data, error: {"status": "FAILED"}] *)
Definition status_failed_handler : FailureHandler unit :=
  fun _ _ w => (Ok {["status" := VStr "FAILED"]}, w).

(** A handler that raises itself. *)
Definition raising_handler (msg : string) : FailureHandler unit :=
  fun _ _ w => (Err (Exception msg), w).

(** [OrchestratorStep("A", always_fails)] *)
Definition step_A : OrchestratorStep unit :=
  {| name := "A"; agent := failing_agent "boom"; retries := 0;
     retry_delay := 1; on_failure := None |}.

(** [OrchestratorStep("B", returns {"content": "b"})] *)
Definition step_B : OrchestratorStep unit :=
  {| name := "B"; agent := constant_agent {["content" := VStr "b"]};
     retries := 0; retry_delay := 1; on_failure := None |}.

(** [OrchestratorStep("A", always_fails, retries=2, on_failure=...)] *)
Definition step_A_handled : OrchestratorStep unit :=
  {| name := "A"; agent := failing_agent "boom"; retries := 2;
     retry_delay := 1; on_failure := Some status_failed_handler |}.

(** A tokenizer with one token per character. *)
Definition char_encoding : Encoding :=
  {| encode s :=
       Ok ((fun c => Z.of_nat (Ascii.nat_of_ascii c))
             <$> String.list_ascii_of_string s);
     decode l :=
       String.string_of_list_ascii
         ((fun t => Ascii.ascii_of_nat (Z.to_nat t)) <$> l) |}.

Definition get_char_encoding (encoding_name : string) : option Encoding :=
  Some char_encoding.

Fixpoint repeat_char (c : Ascii.ascii) (n : nat) : string :=
  match n with
  | O => EmptyString
  | S n' => String c (repeat_char c n')
  end.

(** A document of 600 spaces. *)
Definition blank_document : string := repeat_char (Ascii.ascii_of_nat 32) 600.

(** A document of 600 letters. *)
Definition letters_document : string := repeat_char (Ascii.ascii_of_nat 97) 600.

Definition uuid_of_call (n : nat) : string := "uuid-" +:+ pretty n.

(** An embedding provider that maps every text to [[1, 0, 0]]. *)
Definition unit_embeddings (texts : list Value)
    : Result (list Vector) :=
  Ok ((fun _ => [1 # 1; 0 # 1; 0 # 1]%Q) <$> texts).

Definition echo_llm (user_message : string) : Result string :=
  Ok user_message.

Definition plain_format (v : Value) : string :=
  match v with VStr s => s | _ => EmptyString end.

(** A fresh store of dimension 3. *)
Definition empty_store : FAISSVectorStore :=
  {| dimension := 3; index := []; metadata := [] |}.

Definition fresh_runtime : Runtime :=
  {| vector_store := empty_store; uuid_calls := 0 |}.

(** A store of dimension 3 that holds [[1,0,0]] and [[0,1,0]]. *)
Definition two_vector_store : FAISSVectorStore :=
  {| dimension := 3;
     index := [[1 # 1; 0 # 1; 0 # 1]; [0 # 1; 1 # 1; 0 # 1]]%Q;
     metadata :=
       [ <["document_id" := VStr "uuid-0"]> {["text" := VStr "first"]};
         <["document_id" := VStr "uuid-1"]> {["text" := VStr "second"]} ] |}.

(** An extraction service that reads ["hello world"] from every file. *)
Definition hello_extract (file_path content_type : string) : Result string :=
  Ok "hello world"%string.

(** The input the blueprint route hands to the orchestrator. *)
Definition route_input : Dict :=
  <["k" := VInt 5]>
    {["query" := VStr "Generate a comprehensive GenAI Statement of Work (SOW) based on this document."]}.

End fixtures.

(* ===================================================================== *)
(** * Vocabulary of the further properties *)
(* ===================================================================== *)

Section StoreHistory.
Import faiss_store.

(** The stores a process can hold: a store made by [__init__] when
    [uuid4] had been called [calls0] times, after any number of calls of
    [add_documents], failed ones included. *)
Inductive store_history (uuid4 : nat -> string) (calls0 : nat)
    : Runtime -> Prop :=
| history_init dimension0 self :
    __init__ dimension0 = Ok self ->
    store_history uuid4 calls0 {| vector_store := self; uuid_calls := calls0 |}
| history_add rt embeddings metadata_in r rt' :
    store_history uuid4 calls0 rt ->
    add_documents uuid4 embeddings metadata_in rt = (r, rt') ->
    store_history uuid4 calls0 rt'.

(** Every stored vector has the dimension of the store. *)
Definition vectors_fit (self : FAISSVectorStore) : Prop :=
  Forall (fun v : Vector => Z.of_nat (length v) = dimension self) (index self).

(** The identifier stored with a record. *)
Definition stored_id (meta : Dict) : option Value := meta !! "document_id".

End StoreHistory.

Module more_fixtures.
Import orchestrator chunking faiss_store.

(** The unit vector [[1, 0, 0]]. *)
Definition e1 : Vector := [1 # 1; 0 # 1; 0 # 1]%Q.

(** [{"text": "hello"}] *)
Definition hello_metadata : Dict := {["text" := VStr "hello"]}.

(** The fresh store of dimension 3 after [[1, 0, 0]] was added to it
    with [{"text": "hello"}]. *)
Definition one_record_runtime : Runtime :=
  {| vector_store :=
       {| dimension := 3; index := [e1];
          metadata := [<["document_id" := VStr "uuid-0"]> hello_metadata] |};
     uuid_calls := 1 |}.

(** That store after a rejected empty batch and a batch of two more
    vectors. *)
Definition three_record_runtime : Runtime :=
  snd (add_documents fixtures.uuid_of_call [e1; e1]
         [hello_metadata; hello_metadata]
         (snd (add_documents fixtures.uuid_of_call [] [] one_record_runtime))).

(** A fresh store of dimension 2. *)
Definition narrow_runtime : Runtime :=
  {| vector_store := {| dimension := 2; index := []; metadata := [] |};
     uuid_calls := 0 |}.

(** An extraction service that reads three spaces from every file. *)
Definition blank_extract (file_path content_type : string) : Result string :=
  Ok "   "%string.

(** An agent that raises at its first [failures] invocations and returns
    [out] from then on; the world counts its invocations. *)
Definition flaky_agent (failures : nat) (out : Dict) : Agent nat :=
  fun _ calls =>
    (if (calls <? failures)%nat then Err (Exception "boom") else Ok out,
     S calls).

(** [OrchestratorStep("flaky", fails_twice_then_returns, retries=2)] *)
Definition flaky_step : OrchestratorStep nat :=
  {| name := "flaky"; agent := flaky_agent 2 {["content" := VStr "done"]};
     retries := 2; retry_delay := 1; on_failure := None |}.

(** [OrchestratorStep("C", returns {"content": "c"})] *)
Definition step_C : OrchestratorStep unit :=
  {| name := "C";
     agent := fixtures.constant_agent {["content" := VStr "c"]};
     retries := 0; retry_delay := 1; on_failure := None |}.

(** A file system in which every path exists and reads as no bytes. *)
Definition any_path_exists (file_path : string) : bool := true.

Definition empty_file (file_path : string) : Result text_extraction.bytes :=
  Ok [].

(** A PDF reader that finds three pages, the second without text. *)
Definition three_pages (content : text_extraction.bytes)
    : Result (list (Result string)) :=
  Ok (Ok <$> ["page one"; EmptyString; "page three"]%string).

(** Decoding of ASCII bytes. *)
Definition ascii_decode (content : text_extraction.bytes) : Result string :=
  Ok (String.string_of_list_byte content).

(** A completion service that answers ["answer"] to every request. *)
Definition canned_client (request : groq.Request) : Result groq.Response :=
  Ok [Some "answer"%string].

Definition canned_chat (calls : nat) : groq.Request -> Result groq.Response :=
  canned_client.

(** The blueprint flow over the canned providers, with short system
    prompts. *)
Definition canned_flow (vector_store : FAISSVectorStore)
    : Result (Orchestrator nat) :=
  services.create_blueprint_orchestrator canned_chat fixtures.unit_embeddings
    fixtures.plain_format "Understand." "Discover." "Architect." "Govern."
    "Synthesize." vector_store.

End more_fixtures.

Section IngestionVocabulary.


End IngestionVocabulary.

Section OrchestratorVocabulary2.
Import orchestrator.

Context {W : Type}.

(** The agent returns whatever its input and the state of the world. *)
Definition always_returns (a : Agent W) : Prop :=
  forall input_data w, is_ok (fst (a input_data w)) = true.

(** The agent raises on its next [n] invocations on [input_data],
    starting in world [w], and returns on the one after them; the result
    is what it returned and the world it leaves. *)
Fixpoint returns_after (a : Agent W) (input_data : Dict) (n : nat) (w : W)
    : option (Dict * W) :=
  match a input_data w, n with
  | (Ok out, w'), O => Some (out, w')
  | (Ok _, _), S _ => None
  | (Err _, _), O => None
  | (Err _, w'), S n' => returns_after a input_data n' w'
  end.

(** The cumulative map rebuilt from log entries: every recorded output
    is put under the name of its step, in order. *)
Definition replay (cumulative_data : Dict) (entries : list StepLog) : Dict :=
  foldl (fun acc entry =>
           match output entry with
           | Some out => <[step_name entry := VDict out]> acc
           | None => acc
           end) cumulative_data entries.

End OrchestratorVocabulary2.

Section FlowVocabulary.
Import groq.




End FlowVocabulary.

(* ===================================================================== *)
(** * The orchestrator *)
(* ===================================================================== *)

Section OrchestratorFacts.
Import orchestrator.

Context {W : Type}.
Implicit Types (step : OrchestratorStep W) (m : Machine W) (w : W).


Lemma invocations_app name0 (t1 t2 : list Event) :
  invocations name0 (t1 ++ t2)
  = (invocations name0 t1 + invocations name0 t2)%nat.
Proof. unfold invocations. rewrite List.filter_app, length_app. reflexivity. Qed.

Lemma sleeps_app (t1 t2 : list Event) :
  sleeps (t1 ++ t2) = (sleeps t1 + sleeps t2)%nat.
Proof. unfold sleeps. rewrite List.filter_app, length_app. reflexivity. Qed.

Lemma invocations_retry_trace name0 delay attempt n :
  invocations name0 (retry_trace name0 delay attempt n) = S n.
Proof.
  revert attempt. induction n as [|n IH]; intros attempt.
  - unfold invocations. simpl. rewrite bool_decide_eq_true_2; reflexivity.
  - change (retry_trace name0 delay attempt (S n))
      with ([EvExecute name0 attempt; EvSleep delay]
              ++ retry_trace name0 delay (attempt + 1) n).
    rewrite invocations_app, IH. unfold invocations. simpl.
    rewrite bool_decide_eq_true_2; reflexivity.
Qed.

Lemma sleeps_retry_trace name0 delay attempt n :
  sleeps (retry_trace name0 delay attempt n) = n.
Proof.
  revert attempt. induction n as [|n IH]; intros attempt; [reflexivity|].
  change (retry_trace name0 delay attempt (S n))
    with ([EvExecute name0 attempt; EvSleep delay]
            ++ retry_trace name0 delay (attempt + 1) n).
  rewrite sleeps_app, IH. reflexivity.
Qed.

(** One unfolding of the recursion of [_execute_step]. *)
Lemma _execute_step_once step input_data attempt m :
  _execute_step step input_data attempt m =
  match agent step input_data (world m) with
  | (Ok out, w) =>
      (Ok out, with_world w (record_event (EvExecute (name step) attempt) m))
  | (Err e, w) =>
      let m1 := with_world w (record_event (EvExecute (name step) attempt) m) in
      if attempt <? retries step then
        if Qle_bool 0 (retry_delay step) then
          _execute_step step input_data (attempt + 1)
            (record_event (EvSleep (retry_delay step)) m1)
        else (Err (ValueError "sleep length must be non-negative"), m1)
      else exhausted step input_data e m1
  end.
Proof.
  rewrite _execute_step_equation_1.
  unfold try_except at 1. unfold agent_execute.
  destruct (agent step input_data (world m)) as [[out|e] w]; [reflexivity|].
  cbv zeta. destruct (Z_lt_dec attempt (retries step)) as [Hlt|Hge].
  - rewrite (proj2 (Z.ltb_lt _ _) Hlt). unfold bind, time_sleep.
    destruct (Qle_bool 0 (retry_delay step)); reflexivity.
  - rewrite (proj2 (Z.ltb_ge _ _)) by lia. reflexivity.
Qed.

(** When the agent raises on every attempt that is left, the step makes
    exactly those attempts, sleeping before each retry, and then takes its
    failure path. *)
Lemma _execute_step_exhausts step input_data n :
  forall attempt m e w',
    retries step = attempt + Z.of_nat n ->
    (0 <= retry_delay step)%Q ->
    fails_for (agent step) input_data n (world m) = Some (e, w') ->
    _execute_step step input_data attempt m =
    exhausted step input_data e
      (with_world w'
         (add_events (retry_trace (name step) (retry_delay step) attempt n) m)).
Proof.
  induction n as [|n IH]; intros attempt m e w' Hr Hd Hf;
    rewrite _execute_step_once; simpl in Hf;
    destruct (agent step input_data (world m)) as [[out|e0] w0];
    try discriminate; cbv zeta.
  - inversion Hf; subst e0 w0.
    rewrite (proj2 (Z.ltb_ge _ _)) by lia. reflexivity.
  - rewrite (proj2 (Z.ltb_lt _ _)) by lia.
    rewrite (proj2 (Qle_bool_iff _ _) Hd).
    rewrite (IH (attempt + 1) _ e w'); [|lia|exact Hd|exact Hf].
    f_equal. unfold with_world, add_events, record_event. simpl.
    f_equal. rewrite <- !app_assoc. reflexivity.
Qed.

(** The failure path adds the handler call, if there is a handler, and
    nothing else; without a handler it raises the last exception. *)
Lemma exhausted_spec step input_data e m :
  exists r m',
    exhausted step input_data e m = (r, m')
    /\ trace m' = trace m ++ failure_events step
    /\ execution_log m' = execution_log m
    /\ (on_failure step = None -> r = Err e /\ world m' = world m).
Proof.
  unfold exhausted, failure_events.
  destruct (on_failure step) as [h|].
  - unfold try_except, call_on_failure, raise.
    destruct (h input_data e (world m)) as [[out|he] w'];
      eexists _, _; (split; [reflexivity|]); simpl; repeat split; discriminate.
  - unfold raise. eexists _, _. split; [reflexivity|]. simpl.
    rewrite app_nil_r. auto.
Qed.


End OrchestratorFacts.


Section RunFacts.
Import orchestrator.

Context {W : Type}.
Implicit Types (step : OrchestratorStep W) (m : Machine W) (w : W).

(** [_execute_step] never touches the execution log. *)
Lemma _execute_step_log step input_data :
  forall (n : nat) attempt m r m',
    Z.to_nat (retries step - attempt) = n ->
    _execute_step step input_data attempt m = (r, m') ->
    execution_log m' = execution_log m.
Proof.
  induction n as [n IH] using lt_wf_ind.
  intros attempt m r m' Hn Hrun. rewrite _execute_step_once in Hrun.
  destruct (agent step input_data (world m)) as [[out|e] w0].
  - inversion Hrun; subst. reflexivity.
  - cbv zeta in Hrun. destruct (attempt <? retries step) eqn:Hlt.
    + apply Z.ltb_lt in Hlt.
      destruct (Qle_bool 0 (retry_delay step)).
      * apply (IH (Z.to_nat (retries step - (attempt + 1)))) in Hrun;
          [exact Hrun | lia | reflexivity].
      * inversion Hrun; subst. reflexivity.
    + destruct (exhausted_spec step input_data e
                  (with_world w0
                     (record_event (EvExecute (name step) attempt) m)))
        as (r0 & m0 & Hex0 & _ & Hlog & _).
      rewrite Hex0 in Hrun. inversion Hrun; subst. exact Hlog.
Qed.

Lemma run_step_success i step cumulative_data m out m1 :
  _execute_step step cumulative_data 0 m = (Ok out, m1) ->
  run_step i step cumulative_data m =
  (Ok (<[name step := VDict out]> cumulative_data),
   append_log (success_entry step i cumulative_data out) m1).
Proof. intros H. unfold run_step. rewrite H. reflexivity. Qed.

Lemma run_step_failure i step cumulative_data m e m1 :
  _execute_step step cumulative_data 0 m = (Err e, m1) ->
  run_step i step cumulative_data m =
  (Err e,
   append_log (failed_entry step i cumulative_data e)
     (append_log (failed_entry step i cumulative_data e) m1)).
Proof. intros H. unfold run_step. rewrite H. reflexivity. Qed.

(** What one round of the loop leaves in the log: one [SUCCESS] entry, or
    the [FAILED] entry twice. *)
Lemma run_step_log i step cumulative_data m r m' :
  run_step i step cumulative_data m = (r, m') ->
  exists entries,
    execution_log m' = execution_log m ++ entries
    /\ Forall (fun entry => step_index entry = i /\ attempts entry = 0) entries
    /\ (is_ok r = true -> length entries = 1%nat).
Proof.
  destruct (_execute_step step cumulative_data 0 m) as [[out|e] m1] eqn:Hs;
    pose proof (_execute_step_log step cumulative_data _ 0 m _ m1 eq_refl Hs)
      as Hlog.
  - rewrite (run_step_success i _ _ _ _ _ Hs). intros [= <- <-].
    exists [success_entry step i cumulative_data out]. simpl.
    rewrite Hlog. repeat split. repeat constructor.
  - rewrite (run_step_failure i _ _ _ _ _ Hs). intros [= <- <-].
    exists [failed_entry step i cumulative_data e;
            failed_entry step i cumulative_data e]. simpl.
    rewrite Hlog, <- app_assoc. split; [reflexivity|].
    split; [repeat constructor | discriminate].
Qed.

Lemma run_steps_app (pre post : list (OrchestratorStep W)) :
  forall i cumulative_data m,
    run_steps i (pre ++ post) cumulative_data m =
    match run_steps i pre cumulative_data m with
    | (Ok cumulative_data', m') =>
        run_steps (i + Z.of_nat (length pre)) post cumulative_data' m'
    | (Err e, m') => (Err e, m')
    end.
Proof.
  induction pre as [|s pre IH]; intros i cumulative_data m; simpl.
  - unfold ret. rewrite Z.add_0_r. reflexivity.
  - unfold bind.
    destruct (run_step i s cumulative_data m) as [[c|e] m1]; [|reflexivity].
    rewrite IH. replace (i + 1 + Z.of_nat (length pre))
      with (i + Z.pos (Pos.of_succ_nat (length pre))) by lia.
    reflexivity.
Qed.

(** A completed run writes under the names of its steps only. *)
Lemma run_steps_lookup_other (steps : list (OrchestratorStep W)) :
  forall i cumulative_data m final m' (key : string),
    run_steps i steps cumulative_data m = (Ok final, m') ->
    key ∉ name <$> steps ->
    final !! key = cumulative_data !! key.
Proof.
  induction steps as [|s steps IH]; intros i cumulative_data m final m' key;
    simpl.
  - unfold ret. intros [= <- <-] _. reflexivity.
  - unfold bind. intros Hrun Hkey.
    apply not_elem_of_cons in Hkey as [Hne Hkey].
    destruct (run_step i s cumulative_data m) as [[c|e] m1] eqn:Hs;
      [|discriminate].
    rewrite (IH _ _ _ _ _ _ Hrun Hkey).
    unfold run_step in Hs.
    destruct (_execute_step s cumulative_data 0 m) as [[out|e] m2];
      [|discriminate].
    inversion Hs; subst. rewrite lookup_insert_ne by congruence. reflexivity.
Qed.

(** The entries a run appends carry the positions of its steps, and
    [attempts] 0; a completed run appends one entry per step. *)
Lemma run_steps_log (steps : list (OrchestratorStep W)) :
  forall i cumulative_data m r m',
    run_steps i steps cumulative_data m = (r, m') ->
    exists entries,
      execution_log m' = execution_log m ++ entries
      /\ Forall (fun entry =>
                   i <= step_index entry < i + Z.of_nat (length steps)
                   /\ attempts entry = 0) entries
      /\ (is_ok r = true -> length entries = length steps).
Proof.
  induction steps as [|s steps IH]; intros i cumulative_data m r m'; simpl.
  - unfold ret. intros [= <- <-]. exists []. rewrite app_nil_r.
    repeat split. constructor.
  - unfold bind. intros Hrun.
    destruct (run_step i s cumulative_data m) as [[c|e] m1] eqn:Hs;
      destruct (run_step_log _ _ _ _ _ _ Hs) as (l1 & Hl1 & Hf1 & Hn1).
    + destruct (IH _ _ _ _ _ Hrun) as (l2 & Hl2 & Hf2 & Hn2).
      exists (l1 ++ l2). rewrite Hl2, Hl1, <- app_assoc.
      split; [reflexivity|]. split.
      * apply Forall_app. split.
        -- eapply Forall_impl; [exact Hf1|]. simpl. intros entry [-> ?].
           split; [lia | assumption].
        -- eapply Forall_impl; [exact Hf2|]. simpl. intros entry [? ?].
           split; [lia | assumption].
      * intros Hr. rewrite length_app, Hn1, Hn2 by auto. reflexivity.
    + inversion Hrun; subst. exists l1. split; [exact Hl1|]. split.
      * eapply Forall_impl; [exact Hf1|]. simpl. intros entry [-> ?].
        split; [lia | assumption].
      * discriminate.
Qed.

Lemma execute_unfold (steps0 : list (OrchestratorStep W)) initial_input m :
  execute {| steps := steps0 |} initial_input m
  = run_steps 0 steps0 initial_input (reset_log m).
Proof. reflexivity. Qed.

Lemma _execute_step_handled step handler cumulative_data m e w' :
  on_failure step = Some handler ->
  0 <= retries step ->
  (0 <= retry_delay step)%Q ->
  fails_for (agent step) cumulative_data (Z.to_nat (retries step)) (world m)
  = Some (e, w') ->
  _execute_step step cumulative_data 0 m =
  match handler cumulative_data e w' with
  | (Ok out, w'') =>
      (Ok out, after_handler step (Z.to_nat (retries step)) w'' m)
  | (Err handler_error, w'') =>
      (Err (raise_from handler_error e),
       after_handler step (Z.to_nat (retries step)) w'' m)
  end.
Proof.
  intros Hh Hr Hd Hf.
  rewrite (_execute_step_exhausts step cumulative_data
             (Z.to_nat (retries step)) 0 m e w'); [|lia|exact Hd|exact Hf].
  unfold exhausted. rewrite Hh.
  unfold try_except, call_on_failure, raise, after_handler. simpl.
  destruct (handler cumulative_data e w') as [[out|he] w''];
    unfold with_world, add_events, record_event; simpl;
    rewrite <- app_assoc; reflexivity.
Qed.

End RunFacts.

Section HandlerFacts.
Import orchestrator.

Context {W : Type}.
Implicit Types (step : OrchestratorStep W) (m : Machine W) (w : W).

(** A run whose first steps complete goes on with the step that follows
    them. *)
Lemma execute_after_prefix (pre post : list (OrchestratorStep W)) step
    initial_input m cumulative_data m1 :
  run_steps 0 pre initial_input (reset_log m) = (Ok cumulative_data, m1) ->
  execute {| steps := pre ++ step :: post |} initial_input m =
  bind (run_step (Z.of_nat (length pre)) step cumulative_data)
       (run_steps (Z.of_nat (length pre) + 1) post) m1.
Proof.
  intros Hpre. rewrite execute_unfold, run_steps_app, Hpre. reflexivity.
Qed.

(** C4 (amended). When a step exhausts its retries and its [on_failure]
    handler returns normally, the run proceeds with the handler's return
    value as the step's output, and the step has exactly one log entry,
    which records state SUCCESS with that output and no error. *)
Theorem C4_handled_failure_is_logged_as_success
    (pre post : list (OrchestratorStep W)) step handler
    initial_input m cumulative_data m1 e w' out w'' :
  on_failure step = Some handler ->
  0 <= retries step ->
  (0 <= retry_delay step)%Q ->
  run_steps 0 pre initial_input (reset_log m) = (Ok cumulative_data, m1) ->
  fails_for (agent step) cumulative_data (Z.to_nat (retries step)) (world m1)
  = Some (e, w') ->
  handler cumulative_data e w' = (Ok out, w'') ->
  let self := {| steps := pre ++ step :: post |} in
  let i := Z.of_nat (length pre) in
  (exists m2,
     execute self initial_input m =
     run_steps (i + 1) post (<[name step := VDict out]> cumulative_data) m2)
  /\ forall r m',
       execute self initial_input m = (r, m') ->
       exists before entry after,
         execution_log m' = before ++ entry :: after
         /\ step_name entry = name step
         /\ step_index entry = i
         /\ state entry = SUCCESS
         /\ output entry = Some out
         /\ error entry = None
         /\ Forall (fun other => step_index other <> i) (before ++ after).
Proof.
  intros Hh Hr Hd Hpre Hf Hout self i.
  pose proof (_execute_step_handled step handler cumulative_data m1 e w'
                Hh Hr Hd Hf) as Hstep.
  rewrite Hout in Hstep.
  pose proof (run_step_success i _ _ _ _ _ Hstep) as Hrun.
  assert (Hexec :
    execute self initial_input m =
    run_steps (i + 1) post (<[name step := VDict out]> cumulative_data)
      (append_log (success_entry step i cumulative_data out)
         (after_handler step (Z.to_nat (retries step)) w'' m1))).
  { unfold self. rewrite (execute_after_prefix _ _ _ _ _ _ _ Hpre).
    unfold bind. fold i. rewrite Hrun. reflexivity. }
  split; [eexists; exact Hexec|].
  intros r m' Hfinal. rewrite Hexec in Hfinal.
  destruct (run_steps_log _ _ _ _ _ _ Hfinal) as (l2 & Hl2 & Hf2 & _).
  destruct (run_steps_log _ _ _ _ _ _ Hpre) as (l1 & Hl1 & Hf1 & _).
  simpl in Hl1, Hl2. rewrite Hl1 in Hl2.
  exists l1, (success_entry step i cumulative_data out), l2.
  split; [rewrite Hl2, <- app_assoc; reflexivity|].
  repeat (split; [reflexivity|]).
  apply Forall_app. split.
  - eapply Forall_impl; [exact Hf1|]. simpl. intros other [? _]. lia.
  - eapply Forall_impl; [exact Hf2|]. simpl. intros other [? _]. lia.
Qed.

(** C5. Failure-handler substitution: when the agent of a step with an
    [on_failure] handler raises on all [retries + 1] attempts, then, if
    the handler returns, the run goes on with the remaining steps from
    the cumulative map that holds the returned map under the step's name,
    and a run that completes returns a map holding it there; if the
    handler raises, [execute] raises the handler's exception, chained to
    the original one, and nothing runs after the handler. *)
Theorem C5_failure_handler_substitution
    (pre post : list (OrchestratorStep W)) step handler
    initial_input m cumulative_data m1 e w' :
  on_failure step = Some handler ->
  0 <= retries step ->
  (0 <= retry_delay step)%Q ->
  NoDup (name <$> (pre ++ step :: post)) ->
  run_steps 0 pre initial_input (reset_log m) = (Ok cumulative_data, m1) ->
  fails_for (agent step) cumulative_data (Z.to_nat (retries step)) (world m1)
  = Some (e, w') ->
  let self := {| steps := pre ++ step :: post |} in
  let i := Z.of_nat (length pre) in
  match handler cumulative_data e w' with
  | (Ok out, w'') =>
      (exists m2,
         execute self initial_input m =
         run_steps (i + 1) post (<[name step := VDict out]> cumulative_data) m2
         /\ world m2 = w''
         /\ trace m2 =
              trace (after_handler step (Z.to_nat (retries step)) w'' m1))
      /\ forall final m',
           execute self initial_input m = (Ok final, m') ->
           final !! name step = Some (VDict out)
  | (Err handler_error, w'') =>
      exists m',
        execute self initial_input m = (Err (raise_from handler_error e), m')
        /\ world m' = w''
        /\ trace m' =
             trace (after_handler step (Z.to_nat (retries step)) w'' m1)
  end.
Proof.
  intros Hh Hr Hd Hnames Hpre Hf self i.
  pose proof (_execute_step_handled step handler cumulative_data m1 e w'
                Hh Hr Hd Hf) as Hstep.
  unfold self. rewrite (execute_after_prefix _ _ _ _ _ _ _ Hpre). fold i.
  unfold bind.
  destruct (handler cumulative_data e w') as [[out|he] w''].
  - rewrite (run_step_success i _ _ _ _ _ Hstep). split.
    + eexists. split; [reflexivity|]. split; reflexivity.
    + intros final m' Hfinal.
      rewrite (run_steps_lookup_other _ _ _ _ _ _ (name step) Hfinal).
      * apply lookup_insert_eq.
      * rewrite fmap_app, fmap_cons in Hnames.
        apply NoDup_app in Hnames as (_ & _ & Hnames).
        apply NoDup_cons in Hnames as [Hnot _]. exact Hnot.
  - rewrite (run_step_failure i _ _ _ _ _ Hstep).
    eexists. split; [reflexivity|]. split; reflexivity.
Qed.

End HandlerFacts.

Section ConcreteRuns.
Import orchestrator fixtures.

(** Every entry of every run records [attempts] 0: nothing ever writes
    the field after the entry is created. *)
Lemma attempts_always_zero {W : Type} (self : Orchestrator W) initial_input
    (m : Machine W) r m' :
  execute self initial_input m = (r, m') ->
  Forall (fun entry => attempts entry = 0) (execution_log m').
Proof.
  destruct self as [steps0]. rewrite execute_unfold. intros Hrun.
  destruct (run_steps_log _ _ _ _ _ _ Hrun) as (l & Hl & Hf & _).
  rewrite Hl. simpl. eapply Forall_impl; [exact Hf|]. simpl. tauto.
Qed.

(** C2. The run of [[A(retries=0, always fails, no handler), B]] on [{}]
    raises the exception of A and never starts B, but leaves the FAILED
    entry of A twice in the log: once from the [except] clause and once
    from the [finally] clause. *)
Theorem C2_failed_step_is_logged_twice :
  let self := {| steps := [step_A; step_B] |} in
  let run := execute self ∅ (boot tt) in
  fst run = Err (Exception "boom")
  /\ (fun entry => (step_name entry, state entry, error entry))
       <$> execution_log (snd run)
     = [("A", FAILED, Some "boom"); ("A", FAILED, Some "boom")]
  /\ length (filter (fun entry => step_name entry = "A")
               (get_execution_log (snd run))) = 2%nat
  /\ get_failed_steps (snd run) = ["A"; "A"]
  /\ trace (snd run) = [EvExecute "A" 0]
  /\ invocations "B" (trace (snd run)) = 0%nat.
Proof. repeat split. Qed.

(** C3. In the run of [[A(retries=2, always fails, handler), B]] the agent
    of A is invoked three times and the agent of B once, and both log
    entries record [attempts] 0. *)
Theorem C3_attempts_is_never_updated :
  let self := {| steps := [step_A_handled; step_B] |} in
  let m' := snd (execute self ∅ (boot tt)) in
  is_ok (fst (execute self ∅ (boot tt))) = true
  /\ step_name <$> execution_log m' = ["A"; "B"]
  /\ invocations "A" (trace m') = 3%nat
  /\ invocations "B" (trace m') = 1%nat
  /\ attempts <$> execution_log m' = [0; 0].
Proof. repeat split. Qed.

(** C4, as stated, fails: after A has exhausted its retries and its
    handler has returned [{"status": "FAILED"}], the run completes and
    the entry of A records SUCCESS; no entry records FAILED. *)
Lemma C4_counterexample :
  let self := {| steps := [step_A_handled; step_B] |} in
  let m' := snd (execute self ∅ (boot tt)) in
  is_ok (fst (execute self ∅ (boot tt))) = true
  /\ invocations "A" (trace m') = 3%nat
  /\ (exists entry,
        execution_log m' !! 0%nat = Some entry
        /\ step_name entry = "A"
        /\ output entry = Some {["status" := VStr "FAILED"]}
        /\ state entry <> FAILED)
  /\ get_failed_steps m' = [].
Proof.
  repeat split. eexists. repeat split. discriminate.
Qed.

(** A handler that raises: the run halts on the handler's exception,
    chained to the original one, and B never starts. *)
Example handler_raises_run :
  let step :=
    {| name := "A"; agent := failing_agent "boom"; retries := 1;
       retry_delay := 1; on_failure := Some (raising_handler "handler") |} in
  let run := execute {| steps := [step; step_B] |} ∅ (boot tt) in
  fst run = Err (MkExn "Exception" "handler" (Some (Exception "boom")))
  /\ trace (snd run)
     = [EvExecute "A" 0; EvSleep 1; EvExecute "A" 1; EvOnFailure "A"]
  /\ get_failed_steps (snd run) = ["A"; "A"].
Proof. repeat split. Qed.

(** A negative retry delay makes [time.sleep] raise, which ends the step
    at its first retry. *)
Example negative_delay_run :
  let step :=
    {| name := "A"; agent := failing_agent "boom"; retries := 3;
       retry_delay := (-1) # 1; on_failure := None |} in
  let run := _execute_step step ∅ 0 (boot tt) in
  fst run = Err (ValueError "sleep length must be non-negative")
  /\ trace (snd run) = [EvExecute "A" 0].
Proof. repeat split. Qed.

End ConcreteRuns.

Lemma C4_handled_failure_is_logged_as_success_witness :
  let step := fixtures.step_A_handled in
  let self := {| orchestrator.steps := [] ++ step :: [fixtures.step_B] |} in
  let out : Dict := {["status" := VStr "FAILED"]} in
  (orchestrator.on_failure step = Some fixtures.status_failed_handler
   /\ fails_for (orchestrator.agent step) ∅ 2 tt
      = Some (Exception "boom", tt))
  /\ (exists m2,
        orchestrator.execute self ∅ (orchestrator.boot tt) =
        orchestrator.run_steps (0 + 1) [fixtures.step_B]
          (<["A" := VDict out]> ∅) m2)
  /\ forall r m',
       orchestrator.execute self ∅ (orchestrator.boot tt) = (r, m') ->
       exists before entry after,
         orchestrator.execution_log m' = before ++ entry :: after
         /\ orchestrator.step_name entry = "A"
         /\ orchestrator.step_index entry = 0
         /\ orchestrator.state entry = orchestrator.SUCCESS
         /\ orchestrator.output entry = Some out
         /\ orchestrator.error entry = None
         /\ Forall (fun other => orchestrator.step_index other <> 0)
              (before ++ after).
Proof.
  split; [split; reflexivity|].
  apply (C4_handled_failure_is_logged_as_success
           [] [fixtures.step_B] fixtures.step_A_handled
           fixtures.status_failed_handler ∅ (orchestrator.boot tt)
           ∅ (reset_log (orchestrator.boot tt)) (Exception "boom") tt
           {["status" := VStr "FAILED"]} tt);
    [reflexivity | simpl; lia | discriminate | reflexivity | reflexivity
    | reflexivity].
Defined.

Lemma C5_failure_handler_substitution_witness :
  let step := fixtures.step_A_handled in
  let self := {| orchestrator.steps := [] ++ step :: [fixtures.step_B] |} in
  let out : Dict := {["status" := VStr "FAILED"]} in
  (orchestrator.on_failure step = Some fixtures.status_failed_handler
   /\ NoDup (orchestrator.name <$> ([] ++ step :: [fixtures.step_B]))
   /\ fails_for (orchestrator.agent step) ∅ 2 tt
      = Some (Exception "boom", tt))
  /\ (exists m2,
        orchestrator.execute self ∅ (orchestrator.boot tt) =
        orchestrator.run_steps (0 + 1) [fixtures.step_B]
          (<["A" := VDict out]> ∅) m2
        /\ orchestrator.world m2 = tt
        /\ orchestrator.trace m2 =
             orchestrator.trace
               (after_handler step 2 tt (reset_log (orchestrator.boot tt))))
  /\ forall final m',
       orchestrator.execute self ∅ (orchestrator.boot tt) = (Ok final, m') ->
       final !! "A" = Some (VDict out).
Proof.
  assert (Hnames :
    NoDup (orchestrator.name
             <$> ([] ++ fixtures.step_A_handled :: [fixtures.step_B]))).
  { apply (bool_decide_unpack _). vm_compute. exact I. }
  split; [split; [reflexivity | split; [exact Hnames | reflexivity]]|].
  apply (C5_failure_handler_substitution
           [] [fixtures.step_B] fixtures.step_A_handled
           fixtures.status_failed_handler ∅ (orchestrator.boot tt)
           ∅ (reset_log (orchestrator.boot tt)) (Exception "boom") tt);
    [reflexivity | simpl; lia | discriminate | exact Hnames | reflexivity
    | reflexivity].
Defined.

(* ===================================================================== *)
(** * The similarity index *)
(* ===================================================================== *)

Section StoreFacts.
Import faiss_store.

Lemma insert_by_distance_perm p l :
  insert_by_distance p l ≡ₚ p :: l.
Proof.
  induction l as [|q l IH]; simpl; [reflexivity|].
  destruct (Qle_bool (fst p) (fst q)); [reflexivity|].
  rewrite IH. apply perm_swap.
Qed.

Lemma sort_by_distance_perm l : sort_by_distance l ≡ₚ l.
Proof.
  induction l as [|p l IH]; simpl; [reflexivity|].
  rewrite insert_by_distance_perm, IH. reflexivity.
Qed.




Lemma elem_of_scan xb query (p : Q * Z) :
  p ∈ scan xb query <->
  exists (i : nat) v, xb !! i = Some v /\ p = (sq_l2 query v, Z.of_nat i).
Proof.
  unfold scan. rewrite elem_of_lookup_imap. split.
  - intros (i & v & -> & Hv). eauto.
  - intros (i & v & Hv & ->). eauto.
Qed.


Lemma store_ok_inv self :
  store_ok self = true ->
  length (metadata self) = length (index self)
  /\ forall i meta, metadata self !! i = Some meta ->
       is_Some (meta !! "document_id").
Proof.
  unfold store_ok. intros H. apply andb_true_iff in H as [Hl Hall].
  apply Nat.eqb_eq in Hl. split; [exact Hl|].
  intros i meta Hm. rewrite forallb_forall in Hall.
  assert (Hin : In meta (metadata self)).
  { apply list_elem_of_In. eapply list_elem_of_lookup_2, Hm. }
  apply Hall in Hin. destruct (meta !! "document_id"); [eauto|discriminate].
Qed.

Lemma py_index_nat {A} (l : list A) (i : nat) x :
  l !! i = Some x -> py_index l (Z.of_nat i) = Ok x.
Proof.
  intros Hx. pose proof (lookup_lt_Some _ _ _ Hx) as Hlt.
  unfold py_index. cbv zeta.
  assert (H0 : (Z.of_nat i <? 0) = false) by (apply Z.ltb_ge; lia).
  assert (H1 : (Z.of_nat (length l) <=? Z.of_nat i) = false)
    by (apply Z.leb_gt; lia).
  rewrite H0, H0, H1. simpl. rewrite Nat2Z.id, Hx. reflexivity.
Qed.

(** Over pairs that faiss found among the stored vectors, the result
    loop builds the record of each pair, in order. *)
Lemma build_results_found self query (found : list (Q * Z)) :
  store_ok self = true ->
  Forall (fun p => p ∈ scan (index self) query) found ->
  exists results,
    build_results (metadata self) found = Ok results
    /\ Forall2 (fun p r =>
                  record_at self query (Z.to_nat (snd p)) = Some r
                  /\ res_distance r = fst p) found results.
Proof.
  intros Hok. destruct (store_ok_inv self Hok) as [Hlen Hids].
  induction found as [|[d idx] found IH]; intros Hall.
  - exists []. split; [reflexivity | constructor].
  - apply Forall_cons in Hall as [Hp Hall].
    destruct (IH Hall) as (results & Hres & Hrel).
    apply elem_of_scan in Hp as (i & v & Hv & [= -> ->]).
    destruct (lookup_lt_is_Some_2 (metadata self) i) as [meta Hmeta].
    { rewrite Hlen. eapply lookup_lt_Some, Hv. }
    destruct (Hids i meta Hmeta) as [doc_id Hid].
    simpl. rewrite (proj2 (Z.eqb_neq _ _)) by lia.
    rewrite (py_index_nat _ _ _ Hmeta). simpl. rewrite Hid, Hres. simpl.
    eexists. split; [reflexivity|]. constructor; [|exact Hrel].
    simpl. rewrite Nat2Z.id. unfold record_at. rewrite Hv, Hmeta, Hid.
    split; reflexivity.
Qed.

End StoreFacts.

Section SearchFacts.
Import faiss_store.

(** On a store that holds at least [k] vectors faiss pads nothing. *)
Lemma IndexFlatL2_search_no_padding xb query (k : Z) :
  0 <= k <= Z.of_nat (length xb) ->
  IndexFlatL2_search xb query k
  = take (Z.to_nat k) (sort_by_distance (scan xb query))
  /\ length (IndexFlatL2_search xb query k) = Z.to_nat k.
Proof.
  intros Hk. unfold IndexFlatL2_search. cbv zeta.
  assert (Hlen : length (take (Z.to_nat k) (sort_by_distance (scan xb query)))
                 = Z.to_nat k).
  { rewrite length_take, (Permutation_length (sort_by_distance_perm _)).
    unfold scan. rewrite length_imap. lia. }
  rewrite Hlen, Nat.sub_diag. simpl. rewrite app_nil_r. auto.
Qed.


End SearchFacts.


Section RetrievalFacts.
Import faiss_store embedding_service ingestion_pipeline fixtures.

(** A fresh store satisfies the lock-step invariant. *)
Lemma __init___store_ok dimension0 self :
  __init__ dimension0 = Ok self -> store_ok self = true.
Proof.
  unfold __init__. destruct (dimension0 <=? 0); [discriminate|].
  intros [= <-]. reflexivity.
Qed.

(** What a successful [add_documents] appends: the given vectors, and the
    given metadata with ["document_id"] set to the fresh identifier. *)
Lemma add_documents_ok uuid4 embeddings metadata_in rt ids rt' :
  add_documents uuid4 embeddings metadata_in rt = (Ok ids, rt') ->
  ids = (fun j => uuid4 (uuid_calls rt + j)%nat) <$> seq 0 (length embeddings)
  /\ length embeddings = length metadata_in
  /\ index (vector_store rt') = index (vector_store rt) ++ embeddings
  /\ metadata (vector_store rt') =
       metadata (vector_store rt)
       ++ zip_with (fun (meta : Dict) doc_id =>
                      <["document_id" := VStr doc_id]> meta)
            metadata_in ids.
Proof.
  unfold add_documents.
  destruct (length embeddings =? length metadata_in)%nat eqn:Hlen;
    [|discriminate]. simpl.
  destruct (length embeddings =? 0)%nat; [discriminate|].
  destruct (check_dimensions _ 0 embeddings); [|intros [= <-]; discriminate].
  intros [= <- <-]. simpl. apply Nat.eqb_eq in Hlen. auto.
Qed.

(** Whatever ["document_id"] a metadata dictionary came with, the store
    keeps the fresh identifier under that key. *)
Lemma add_documents_document_id uuid4 embeddings metadata_in rt ids rt' :
  add_documents uuid4 embeddings metadata_in rt = (Ok ids, rt') ->
  forall (i : nat) meta,
    metadata (vector_store rt')
      !! (length (metadata (vector_store rt)) + i)%nat = Some meta ->
    meta !! "document_id" = Some (VStr (uuid4 (uuid_calls rt + i)%nat)).
Proof.
  intros Hadd i meta Hm.
  destruct (add_documents_ok _ _ _ _ _ _ Hadd) as (Hids & Hlen & _ & Hmeta).
  rewrite Hmeta, lookup_app_r, Nat.add_comm, Nat.add_sub in Hm by lia.
  apply lookup_zip_with_Some in Hm as (meta0 & id & -> & _ & Hid).
  rewrite Hids, list_lookup_fmap in Hid.
  destruct (seq 0 (length embeddings) !! i) as [j|] eqn:Hj; [|discriminate].
  apply lookup_seq in Hj as [-> _]. inversion Hid; subst.
  apply lookup_insert_eq.
Qed.

Lemma add_documents_store_ok uuid4 embeddings metadata_in rt r rt' :
  store_ok (vector_store rt) = true ->
  add_documents uuid4 embeddings metadata_in rt = (r, rt') ->
  store_ok (vector_store rt') = true.
Proof.
  intros Hok Hadd. destruct r as [ids|e].
  - destruct (add_documents_ok _ _ _ _ _ _ Hadd) as (Hids & Hlen & Hi & Hm).
    unfold store_ok in *. apply andb_true_iff in Hok as [Hl Hall].
    apply Nat.eqb_eq in Hl. rewrite Hi, Hm. apply andb_true_iff. split.
    + apply Nat.eqb_eq. rewrite !length_app, length_zip_with, Hids,
        length_fmap, length_seq. lia.
    + rewrite forallb_app, Hall. simpl. apply forallb_forall.
      intros meta Hin. apply list_elem_of_In, list_elem_of_lookup in Hin.
      destruct Hin as [i Hin].
      apply lookup_zip_with_Some in Hin as (meta0 & id & -> & _ & _).
      rewrite lookup_insert_eq. reflexivity.
  - revert Hadd. unfold add_documents.
    destruct (negb _); [intros [= _ <-]; exact Hok|].
    destruct (_ =? 0)%nat; [intros [= _ <-]; exact Hok|].
    destruct (check_dimensions _ _ _); [discriminate|].
    intros [= _ <-]. exact Hok.
Qed.

(** On an empty store [_process] always raises: whatever the query, the
    providers and [k], it never returns the "no context found"
    dictionary. *)
Lemma _process_empty_store_raises embeddings_create _call_llm format_value
    (self : FAISSVectorStore) (input_data : Dict) :
  is_empty self = true ->
  is_ok (document_understanding._process embeddings_create _call_llm
           format_value self input_data) = false.
Proof.
  unfold is_empty. intros Hempty. unfold document_understanding._process.
  cbv zeta.
  destruct (generate_embeddings embeddings_create _) as [embeddings|];
    [|reflexivity]. simpl.
  destruct (py_index embeddings 0) as [query_embedding|]; [|reflexivity].
  simpl. unfold similarity_search. rewrite Hempty.
  destruct (default (VInt 5) (input_data !! "k")); reflexivity.
Qed.

(** C6. On the empty store of dimension 3, with the input of the blueprint
    route and working providers, retrieval raises [ValueError("Cannot
    search empty index")]; it does not return the "no context found"
    dictionary. *)
Theorem C6_retrieve_on_empty_index_raises :
  is_empty empty_store = true
  /\ document_understanding.execute unit_embeddings echo_llm plain_format
       empty_store route_input
     = Err (ValueError "Cannot search empty index")
  /\ document_understanding.execute unit_embeddings echo_llm plain_format
       empty_store route_input
     <> Ok document_understanding.no_context_found.
Proof. repeat split. discriminate. Qed.

(** C7. Ingesting document ["doc-1"] (one chunk) into a fresh store
    succeeds with equal counts, and the one stored record carries the
    fresh identifier ["uuid-0"] under ["document_id"]: the identifier of
    the ingested document, written under the same key by the pipeline,
    is overwritten by the store. *)
Theorem C7_document_id_is_overwritten :
  let run :=
    ingest_document get_char_encoding uuid_of_call unit_embeddings
      hello_extract default_pipeline "doc-1" "data/uploads/doc-1.txt"
      "text/plain" None fresh_runtime in
  fst run
  = Ok {| stat_document_id := "doc-1"; chunks_created := 1;
          embeddings_generated := 1; chunks_stored := 1;
          text_length := 11 |}
  /\ (fun meta : Dict => meta !! "document_id")
       <$> metadata (vector_store (snd run))
     = [Some (VStr "uuid-0")]
  /\ (fun meta : Dict => meta !! "text")
       <$> metadata (vector_store (snd run))
     = [Some (VStr "hello world")]
  /\ Forall (fun meta : Dict => meta !! "document_id" <> Some (VStr "doc-1"))
       (metadata (vector_store (snd run))).
Proof.
  repeat split. repeat constructor. discriminate.
Qed.

End RetrievalFacts.

(* ===================================================================== *)
(** * The chunker *)
(* ===================================================================== *)

Section ChunkingFacts.
Import chunking.

Lemma lstrip_head s :
  lstrip s = EmptyString
  \/ exists c s', lstrip s = String c s' /\ py_isspace c = false.
Proof.
  induction s as [|c s IH]; simpl; [auto|].
  destruct (py_isspace c) eqn:Hc; [exact IH | eauto].
Qed.

Lemma lstrip_empty_iff s :
  lstrip s = EmptyString <-> whitespace_only s = true.
Proof.
  induction s as [|c s IH]; simpl; [tauto|].
  destruct (py_isspace c); simpl; [exact IH|].
  split; discriminate.
Qed.

Lemma whitespace_only_rev_app s1 s2 :
  whitespace_only (String.rev_app s1 s2)
  = whitespace_only s1 && whitespace_only s2.
Proof.
  revert s2. induction s1 as [|c s1 IH]; intros s2; simpl; [reflexivity|].
  rewrite IH. simpl. destruct (py_isspace c), (whitespace_only s1);
    reflexivity.
Qed.

Lemma rev_app_empty s1 s2 :
  String.rev_app s1 s2 = EmptyString -> s1 = EmptyString /\ s2 = EmptyString.
Proof.
  revert s2. induction s1 as [|c s1 IH]; intros s2; simpl; [auto|].
  intros H. apply IH in H as [_ H]. discriminate.
Qed.

(** [not text.strip()] holds exactly for the texts made of whitespace
    only. *)
Lemma blank_iff_whitespace_only text :
  negb (str_truthy (py_strip text)) = whitespace_only text.
Proof.
  destruct (whitespace_only text) eqn:Hw.
  - apply lstrip_empty_iff in Hw. unfold py_strip. rewrite Hw. reflexivity.
  - destruct (py_strip text) eqn:Hs; [|reflexivity]. exfalso.
    unfold py_strip, rstrip, String.rev in Hs.
    assert (Hl : lstrip (String.rev_app (lstrip text) EmptyString)
                 = EmptyString).
    { destruct (lstrip (String.rev_app (lstrip text) EmptyString)) eqn:E;
        [reflexivity|]. apply rev_app_empty in Hs as [Hs _]. discriminate. }
    apply lstrip_empty_iff in Hl.
    rewrite whitespace_only_rev_app, andb_true_r in Hl.
    destruct (lstrip_head text) as [He | (c & s' & He & Hc)].
    + apply lstrip_empty_iff in He. congruence.
    + rewrite He in Hl. simpl in Hl. rewrite Hc in Hl. discriminate.
Qed.

(** A window that starts inside the token list is not empty. *)
Lemma py_slice_nonempty {A} (l : list A) (start stop : Z) :
  0 <= start < Z.of_nat (length l) -> start < stop ->
  py_slice l start stop <> [].
Proof.
  intros Hs Hlt. unfold py_slice, norm_index. cbv zeta.
  assert (H0 : (start <? 0) = false) by (apply Z.ltb_ge; lia).
  assert (H1 : (stop <? 0) = false) by (apply Z.ltb_ge; lia).
  rewrite H0, H1. intros Hnil.
  apply (f_equal length) in Hnil.
  rewrite length_take, length_drop in Hnil. simpl in Hnil. lia.
Qed.

(** The loop, started inside the token list, appends the decodings of
    the windows at [start_idx], [start_idx + step_size], ...; a window is
    followed by another one exactly when its end lies before the end of
    the tokens. *)
Lemma chunk_loop_windows encoding tokens chunk_size step_size Hstep :
  step_size <= chunk_size ->
  forall (n : nat) start_idx chunks,
    Z.to_nat (Z.of_nat (length tokens) - start_idx) = n ->
    0 <= start_idx < Z.of_nat (length tokens) ->
    exists ws : list (list Token),
      chunk_loop encoding tokens chunk_size step_size Hstep start_idx chunks
      = chunks ++ (decode encoding <$> ws)
      /\ (0 < length ws)%nat
      /\ forall (j : nat) w,
           ws !! j = Some w ->
           w = py_slice tokens (start_idx + Z.of_nat j * step_size)
                 (start_idx + Z.of_nat j * step_size + chunk_size)
           /\ w <> []
           /\ (start_idx + Z.of_nat j * step_size + chunk_size
               < Z.of_nat (length tokens)
               <-> (S j < length ws)%nat).
Proof.
  intros Hle n. induction n as [n IH] using lt_wf_ind.
  intros start_idx chunks Hn Hstart.
  rewrite chunk_loop_equation_1.
  destruct (Z_lt_dec start_idx (Z.of_nat (length tokens))) as [_|]; [|lia].
  cbv zeta.
  set (w0 := py_slice tokens start_idx (start_idx + chunk_size)).
  assert (Hw0 : w0 <> []) by (apply py_slice_nonempty; lia).
  destruct (Z.of_nat (length tokens) <=? start_idx + chunk_size) eqn:Hend.
  - apply Z.leb_le in Hend. exists [w0].
    split; [reflexivity|]. split; [simpl; lia|].
    intros [|j] w; [|discriminate]. intros [= <-].
    rewrite Z.mul_0_l, Z.add_0_r. repeat split; [exact Hw0 | | ]; simpl; lia.
  - apply Z.leb_gt in Hend.
    destruct (IH (Z.to_nat (Z.of_nat (length tokens)
                            - (start_idx + step_size))))
      with (start_idx := start_idx + step_size)
           (chunks := chunks ++ [decode encoding w0])
      as (ws & Hloop & Hpos & Hws); [lia | reflexivity | lia |].
    exists (w0 :: ws). rewrite Hloop, <- app_assoc.
    split; [reflexivity|]. split; [simpl; lia|].
    intros [|j] w.
    + intros [= <-]. rewrite Z.mul_0_l, Z.add_0_r.
      repeat split; [exact Hw0 | | ]; simpl; lia.
    + simpl. intros Hj. destruct (Hws j w Hj) as (Hw & Hne & Hiff).
      replace (start_idx + Z.of_nat (S j) * step_size)
        with (start_idx + step_size + Z.of_nat j * step_size) by lia.
      split; [exact Hw|]. split; [exact Hne|]. rewrite Hiff. lia.
Qed.

End ChunkingFacts.

Section ChunkTextFacts.
Import chunking.

Variable get_encoding : string -> option Encoding.

(** [chunk_text] on a text that is not blank and has more tokens than
    [chunk_size]. *)
Lemma chunk_text_long text chunk_size chunk_overlap encoding_name
    encoding tokens :
  valid_chunking chunk_size chunk_overlap ->
  whitespace_only text = false ->
  get_encoding encoding_name = Some encoding ->
  encode encoding text = Ok tokens ->
  chunk_size < Z.of_nat (length tokens) ->
  exists n : nat,
    chunk_text get_encoding text chunk_size chunk_overlap encoding_name
    = Ok (decode encoding
            <$> (window tokens chunk_size chunk_overlap <$> seq 0 n))
    /\ (2 <= n)%nat
    /\ forall j : nat,
         (j < n)%nat ->
         window tokens chunk_size chunk_overlap j <> []
         /\ (Z.of_nat j * (chunk_size - chunk_overlap) + chunk_size
             < Z.of_nat (length tokens)
             <-> (S j < n)%nat).
Proof.
  intros (Hsize & Hov0 & Hov) Hblank Henc Htok Hlong. unfold chunk_text.
  assert (H0 : (chunk_size <=? 0) = false) by (apply Z.leb_gt; lia).
  assert (H1 : (chunk_overlap <? 0) = false) by (apply Z.ltb_ge; lia).
  assert (H2 : (Z.of_nat (length tokens) <=? chunk_size) = false)
    by (apply Z.leb_gt; lia).
  rewrite H0, H1.
  destruct (Z_lt_dec chunk_overlap chunk_size) as [Hlt|]; [|lia].
  rewrite blank_iff_whitespace_only, Hblank, Henc, Htok. simpl.
  rewrite H2.
  destruct (chunk_loop_windows encoding tokens chunk_size
              (chunk_size - chunk_overlap)
              (proj2 (Z.lt_0_sub chunk_overlap chunk_size) Hlt)
              ltac:(lia) _ 0 [] eq_refl ltac:(lia))
    as (ws & Hloop & Hpos & Hws).
  exists (length ws). rewrite Hloop. simpl.
  assert (Heq : ws = window tokens chunk_size chunk_overlap
                       <$> seq 0 (length ws)).
  { apply list_eq. intros j. rewrite list_lookup_fmap.
    destruct (ws !! j) as [w|] eqn:Hj.
    - rewrite lookup_seq_lt by (eapply lookup_lt_Some, Hj). simpl.
      destruct (Hws j w Hj) as (-> & _). rewrite Z.add_0_l. reflexivity.
    - rewrite lookup_seq_ge by (eapply lookup_ge_None, Hj). reflexivity. }
  split; [rewrite <- Heq; reflexivity|].
  assert (Hj : forall j : nat,
             (j < length ws)%nat ->
             window tokens chunk_size chunk_overlap j <> []
             /\ (Z.of_nat j * (chunk_size - chunk_overlap) + chunk_size
                 < Z.of_nat (length tokens)
                 <-> (S j < length ws)%nat)).
  { intros j Hlt'. destruct (lookup_lt_is_Some_2 ws j Hlt') as [w Hw].
    destruct (Hws j w Hw) as (Hwj & Hne & Hiff).
    rewrite Z.add_0_l in Hwj, Hiff.
    unfold window. cbv zeta. rewrite <- Hwj. tauto. }
  split; [|exact Hj].
  destruct (Hj 0%nat Hpos) as [_ Hiff]. simpl in Hiff. lia.
Qed.

(** C9 (amended). Chunker windowing: for every text that is not blank and
    tokenizes to more than [chunk_size] tokens, chunks are the decodings
    of the windows [tokens[j*step : j*step + chunk_size]] for
    [step = chunk_size - overlap] and [j = 0, 1, ...]; a window is
    followed by another one exactly when its end lies before the end of
    the tokens, and no window is empty. In particular a 600-token
    document that is not blank, with [chunk_size = 512] and
    [overlap = 50], yields exactly two chunks, the decodings of
    [tokens[0:512]] and [tokens[462:600]]. *)
Theorem C9_chunker_windowing :
  (forall text chunk_size chunk_overlap encoding_name encoding tokens,
     valid_chunking chunk_size chunk_overlap ->
     whitespace_only text = false ->
     get_encoding encoding_name = Some encoding ->
     encode encoding text = Ok tokens ->
     chunk_size < Z.of_nat (length tokens) ->
     exists n : nat,
       chunk_text get_encoding text chunk_size chunk_overlap encoding_name
       = Ok (decode encoding
               <$> (window tokens chunk_size chunk_overlap <$> seq 0 n))
       /\ (2 <= n)%nat
       /\ forall j : nat,
            (j < n)%nat ->
            window tokens chunk_size chunk_overlap j <> []
            /\ (Z.of_nat j * (chunk_size - chunk_overlap) + chunk_size
                < Z.of_nat (length tokens)
                <-> (S j < n)%nat))
  /\ (forall text encoding_name encoding tokens,
        whitespace_only text = false ->
        get_encoding encoding_name = Some encoding ->
        encode encoding text = Ok tokens ->
        length tokens = 600%nat ->
        chunk_text get_encoding text 512 50 encoding_name
        = Ok [decode encoding (py_slice tokens 0 512);
              decode encoding (py_slice tokens 462 600)]).
Proof.
  split; [apply chunk_text_long|].
  intros text encoding_name encoding tokens Hblank Henc Htok Hlen.
  destruct (chunk_text_long text 512 50 encoding_name encoding tokens)
    as (n & Hchunks & Hn & Hw);
    [unfold valid_chunking; lia | assumption.. | lia |].
  assert (n = 2%nat) as ->.
  { destruct (Hw 1%nat ltac:(lia)) as [_ Hiff]. lia. }
  rewrite Hchunks. unfold window, py_slice, norm_index. rewrite Hlen.
  reflexivity.
Qed.

(** C10. Single-chunk identity: with valid parameters, a blank text
    yields no chunk and no error, and a text that is not blank and
    tokenizes to at most [chunk_size] tokens yields exactly one chunk,
    the input text itself. *)
Theorem C10_single_chunk_identity
    text chunk_size chunk_overlap encoding_name :
  valid_chunking chunk_size chunk_overlap ->
  (whitespace_only text = true ->
   chunk_text get_encoding text chunk_size chunk_overlap encoding_name
   = Ok [])
  /\ (forall encoding tokens,
        whitespace_only text = false ->
        get_encoding encoding_name = Some encoding ->
        encode encoding text = Ok tokens ->
        Z.of_nat (length tokens) <= chunk_size ->
        chunk_text get_encoding text chunk_size chunk_overlap encoding_name
        = Ok [text]).
Proof.
  intros (Hsize & Hov0 & Hov). unfold chunk_text.
  assert (H0 : (chunk_size <=? 0) = false) by (apply Z.leb_gt; lia).
  assert (H1 : (chunk_overlap <? 0) = false) by (apply Z.ltb_ge; lia).
  rewrite H0, H1.
  destruct (Z_lt_dec chunk_overlap chunk_size) as [Hlt|]; [|lia].
  rewrite blank_iff_whitespace_only. split.
  - intros ->. reflexivity.
  - intros encoding tokens -> -> Htok Hlen. rewrite Htok. simpl.
    rewrite (proj2 (Z.leb_le _ _) Hlen). reflexivity.
Qed.

End ChunkTextFacts.

(** C9, as stated, fails on blank documents: a document of 600 spaces has
    600 tokens under the one-token-per-character tokenizer, more than
    [chunk_size = 512], and [chunk_text] returns no chunk at all. *)
Lemma C9_counterexample :
  let text := fixtures.blank_document in
  exists tokens,
    chunking.encode fixtures.char_encoding text = Ok tokens
    /\ length tokens = 600%nat
    /\ 512 < Z.of_nat (length tokens)
    /\ chunking.chunk_text fixtures.get_char_encoding text 512 50
         chunking.default_encoding_name = Ok []
    /\ chunking.chunk_text fixtures.get_char_encoding text 512 50
         chunking.default_encoding_name
       <> Ok [chunking.decode fixtures.char_encoding (py_slice tokens 0 512);
              chunking.decode fixtures.char_encoding
                (py_slice tokens 462 600)].
Proof.
  eexists. split; [reflexivity|]. split; [vm_compute; reflexivity|].
  split; [vm_compute; reflexivity|]. split; [vm_compute; reflexivity|].
  vm_compute. discriminate.
Qed.

Lemma C9_chunker_windowing_witness :
  let text := fixtures.letters_document in
  let tokens := (fun _ : nat => 97) <$> seq 0 600 in
  (valid_chunking 512 50
   /\ whitespace_only text = false
   /\ chunking.encode fixtures.char_encoding text = Ok tokens
   /\ 512 < Z.of_nat (length tokens))
  /\ exists n : nat,
       chunking.chunk_text fixtures.get_char_encoding text 512 50
         chunking.default_encoding_name
       = Ok (chunking.decode fixtures.char_encoding
               <$> (window tokens 512 50 <$> seq 0 n))
       /\ (2 <= n)%nat
       /\ forall j : nat,
            (j < n)%nat ->
            window tokens 512 50 j <> []
            /\ (Z.of_nat j * (512 - 50) + 512 < Z.of_nat (length tokens)
                <-> (S j < n)%nat).
Proof.
  split.
  - split; [unfold valid_chunking; lia|].
    split; [vm_compute; reflexivity|].
    split; [vm_compute; reflexivity|]. vm_compute. reflexivity.
  - apply (proj1 (C9_chunker_windowing fixtures.get_char_encoding)
             fixtures.letters_document 512 50 chunking.default_encoding_name
             fixtures.char_encoding ((fun _ : nat => 97) <$> seq 0 600)).
    + unfold valid_chunking. lia.
    + vm_compute. reflexivity.
    + reflexivity.
    + vm_compute. reflexivity.
    + vm_compute. reflexivity.
Defined.

Lemma C10_single_chunk_identity_witness :
  valid_chunking 512 50
  /\ (whitespace_only "hello world" = true ->
      chunking.chunk_text fixtures.get_char_encoding "hello world" 512 50
        chunking.default_encoding_name = Ok [])
  /\ (forall encoding tokens,
        whitespace_only "hello world" = false ->
        fixtures.get_char_encoding chunking.default_encoding_name
        = Some encoding ->
        chunking.encode encoding "hello world" = Ok tokens ->
        Z.of_nat (length tokens) <= 512 ->
        chunking.chunk_text fixtures.get_char_encoding "hello world" 512 50
          chunking.default_encoding_name = Ok ["hello world"%string]).
Proof.
  split; [unfold valid_chunking; lia|].
  apply (C10_single_chunk_identity fixtures.get_char_encoding "hello world"
           512 50 chunking.default_encoding_name).
  unfold valid_chunking. lia.
Defined.

(* ===================================================================== *)
(** * More on the chunker *)
(* ===================================================================== *)

Section SliceFacts.
Context {A : Type}.
Implicit Types l : list A.

(** A slice with bounds [0 <= start <= stop], [start] inside the list. *)
Lemma py_slice_inside l (start stop : Z) :
  0 <= start <= Z.of_nat (length l) -> start <= stop ->
  py_slice l start stop
  = take (Z.to_nat (Z.min stop (Z.of_nat (length l)) - start))
         (drop (Z.to_nat start) l).
Proof.
  intros Hs Hle. unfold py_slice, norm_index. cbv zeta.
  assert (H0 : (start <? 0) = false) by (apply Z.ltb_ge; lia).
  assert (H1 : (stop <? 0) = false) by (apply Z.ltb_ge; lia).
  rewrite H0, H1. rewrite (Z.min_l start) by lia. reflexivity.
Qed.

Lemma length_py_slice_inside l (start stop : Z) :
  0 <= start <= Z.of_nat (length l) -> start <= stop ->
  Z.of_nat (length (py_slice l start stop))
  = Z.min stop (Z.of_nat (length l)) - start.
Proof.
  intros Hs Hle. rewrite py_slice_inside, length_take, length_drop by lia.
  lia.
Qed.




End SliceFacts.

Section ChunkShapeFacts.
Import chunking.

Variable get_encoding : string -> option Encoding.

(** The windows of a long text, with what the stopping rule says about
    each of them. *)
Lemma chunk_text_windows text chunk_size chunk_overlap encoding_name
    encoding tokens :
  valid_chunking chunk_size chunk_overlap ->
  whitespace_only text = false ->
  get_encoding encoding_name = Some encoding ->
  encode encoding text = Ok tokens ->
  chunk_size < Z.of_nat (length tokens) ->
  exists n : nat,
    chunk_text get_encoding text chunk_size chunk_overlap encoding_name
    = Ok (decode encoding
            <$> (window tokens chunk_size chunk_overlap <$> seq 0 n))
    /\ (2 <= n)%nat
    /\ (forall j : nat,
          (S j < n)%nat ->
          Z.of_nat j * (chunk_size - chunk_overlap) + chunk_size
          < Z.of_nat (length tokens))
    /\ Z.of_nat (length tokens)
       <= Z.of_nat (n - 1) * (chunk_size - chunk_overlap) + chunk_size.
Proof.
  intros Hv Hb He Ht Hl.
  destruct (chunk_text_long get_encoding text chunk_size chunk_overlap
              encoding_name encoding tokens Hv Hb He Ht Hl)
    as (n & Hrun & Hn & Hw).
  exists n. split; [exact Hrun|]. split; [exact Hn|]. split.
  - intros j Hj. destruct (Hw j ltac:(lia)) as [_ Hiff]. apply Hiff, Hj.
  - destruct (Hw (n - 1)%nat ltac:(lia)) as [_ Hiff].
    destruct (Z_lt_dec
                (Z.of_nat (n - 1) * (chunk_size - chunk_overlap) + chunk_size)
                (Z.of_nat (length tokens))) as [Hlt|]; [|lia].
    apply Hiff in Hlt. lia.
Qed.

(** X1. The number of chunks of a long text: one, plus the number of steps
    of [chunk_size - chunk_overlap] tokens needed to get from the end of
    the first window to the end of the tokens. *)
Theorem X1_chunk_count text chunk_size chunk_overlap encoding_name
    encoding tokens chunks :
  valid_chunking chunk_size chunk_overlap ->
  whitespace_only text = false ->
  get_encoding encoding_name = Some encoding ->
  encode encoding text = Ok tokens ->
  chunk_size < Z.of_nat (length tokens) ->
  chunk_text get_encoding text chunk_size chunk_overlap encoding_name
  = Ok chunks ->
  let step_size := chunk_size - chunk_overlap in
  Z.of_nat (length chunks)
  = 1 + (Z.of_nat (length tokens) - chunk_size + step_size - 1) / step_size.
Proof.
  intros Hv Hb He Ht Hl Hrun step_size.
  destruct (chunk_text_windows text chunk_size chunk_overlap encoding_name
              encoding tokens Hv Hb He Ht Hl)
    as (n & Hn & Hn2 & Hbefore & Hlast).
  rewrite Hn in Hrun. inversion Hrun; subst chunks.
  rewrite !length_fmap, length_seq.
  destruct Hv as (Hsize & Hov0 & Hov).
  specialize (Hbefore (n - 2)%nat ltac:(lia)). fold step_size in Hbefore, Hlast.
  assert (Hstep : 0 < step_size) by (unfold step_size; lia).
  replace (Z.of_nat (n - 2)) with (Z.of_nat n - 2) in Hbefore by lia.
  replace (Z.of_nat (n - 1)) with (Z.of_nat n - 1) in Hlast by lia.
  symmetry. apply Z.add_move_l. symmetry.
  apply (Z.div_unique_pos _ _ _
           (Z.of_nat (length tokens) - chunk_size + step_size - 1
            - step_size * (Z.of_nat n - 1))); nia.
Qed.

(** X2. Every chunk respects the token limit: each window but the last holds
    exactly [chunk_size] tokens, and the last one holds more than
    [chunk_overlap] and at most [chunk_size] tokens. *)
Theorem X2_chunk_sizes text chunk_size chunk_overlap encoding_name
    encoding tokens :
  valid_chunking chunk_size chunk_overlap ->
  whitespace_only text = false ->
  get_encoding encoding_name = Some encoding ->
  encode encoding text = Ok tokens ->
  chunk_size < Z.of_nat (length tokens) ->
  exists ws : list (list Token),
    chunk_text get_encoding text chunk_size chunk_overlap encoding_name
    = Ok (decode encoding <$> ws)
    /\ (forall (j : nat) w,
          ws !! j = Some w -> (S j < length ws)%nat ->
          Z.of_nat (length w) = chunk_size)
    /\ (forall w,
          last ws = Some w ->
          chunk_overlap < Z.of_nat (length w) <= chunk_size).
Proof.
  intros Hv Hb He Ht Hl.
  destruct (chunk_text_windows text chunk_size chunk_overlap encoding_name
              encoding tokens Hv Hb He Ht Hl)
    as (n & Hn & Hn2 & Hbefore & Hlast).
  destruct Hv as (Hsize & Hov0 & Hov).
  exists (window tokens chunk_size chunk_overlap <$> seq 0 n).
  split; [exact Hn|].
  assert (Hstart : forall j : nat,
             (j < n)%nat ->
             Z.of_nat j * (chunk_size - chunk_overlap)
             < Z.of_nat (length tokens) - chunk_overlap).
  { intros [|j] Hj; [lia|]. specialize (Hbefore j ltac:(lia)). lia. }
  split.
  - intros j w Hw Hj. rewrite length_fmap, length_seq in Hj.
    rewrite list_lookup_fmap, lookup_seq_lt in Hw by lia.
    inversion Hw; subst w. unfold window. cbv zeta.
    specialize (Hbefore j Hj). specialize (Hstart j ltac:(lia)).
    rewrite length_py_slice_inside by nia. lia.
  - intros w Hw. rewrite last_lookup, length_fmap, length_seq in Hw.
    rewrite list_lookup_fmap, lookup_seq_lt in Hw by lia.
    inversion Hw; subst w. unfold window. cbv zeta.
    specialize (Hstart (Nat.pred n) ltac:(lia)).
    replace (Nat.pred n) with (n - 1)%nat in * by lia.
    rewrite length_py_slice_inside by nia. lia.
Qed.


(** X4. [chunk_text] returns a result exactly when its parameters are valid
    and the text is blank or can be tokenized with a known encoding. *)
Theorem X4_chunk_text_succeeds_iff text chunk_size chunk_overlap
    encoding_name :
  is_ok (chunk_text get_encoding text chunk_size chunk_overlap encoding_name)
  = true
  <-> valid_chunking chunk_size chunk_overlap
      /\ (whitespace_only text = true
          \/ exists encoding tokens,
               get_encoding encoding_name = Some encoding
               /\ encode encoding text = Ok tokens).
Proof.
  unfold chunk_text, valid_chunking.
  destruct (chunk_size <=? 0) eqn:H0;
    [apply Z.leb_le in H0; split; [discriminate | lia]|].
  apply Z.leb_gt in H0.
  destruct (chunk_overlap <? 0) eqn:H1;
    [apply Z.ltb_lt in H1; split; [discriminate | lia]|].
  apply Z.ltb_ge in H1.
  destruct (Z_lt_dec chunk_overlap chunk_size) as [Hlt|Hge];
    [|split; [discriminate | lia]].
  rewrite blank_iff_whitespace_only.
  destruct (whitespace_only text); [simpl; intuition lia|].
  destruct (get_encoding encoding_name) as [encoding|].
  - destruct (encode encoding text) as [tokens|e] eqn:Henc; simpl.
    + destruct (Z.of_nat (length tokens) <=? chunk_size); simpl;
        (split; [intros _|reflexivity]);
        (split; [lia | right; eauto]).
    + split; [discriminate|].
      intros (_ & [? | (enc & toks & [= <-] & Hc)]); congruence.
  - split; [discriminate|].
    intros (_ & [? | (enc & toks & ? & _)]); discriminate.
Qed.

(** A blank text never reaches the tokenizer: it yields no chunk even
    under an unknown encoding name, where any other text raises
    [ValueError] chained to the [KeyError] of the lookup. *)
Lemma chunk_text_unknown_encoding text chunk_size chunk_overlap encoding_name :
  valid_chunking chunk_size chunk_overlap ->
  get_encoding encoding_name = None ->
  chunk_text get_encoding text chunk_size chunk_overlap encoding_name
  = if whitespace_only text then Ok []
    else Err (MkExn "ValueError"
                ("Invalid encoding name: " +:+ encoding_name)
                (Some (KeyError encoding_name))).
Proof.
  intros (Hsize & Hov0 & Hov) Hnone. unfold chunk_text.
  assert (H0 : (chunk_size <=? 0) = false) by (apply Z.leb_gt; lia).
  assert (H1 : (chunk_overlap <? 0) = false) by (apply Z.ltb_ge; lia).
  rewrite H0, H1.
  destruct (Z_lt_dec chunk_overlap chunk_size) as [Hlt|]; [|lia].
  rewrite blank_iff_whitespace_only, Hnone.
  destruct (whitespace_only text); reflexivity.
Qed.

End ChunkShapeFacts.


Lemma X1_chunk_count_witness :
  let text := fixtures.letters_document in
  let tokens := (fun _ : nat => 97) <$> seq 0 600 in
  let chunks :=
    [fixtures.repeat_char (Ascii.ascii_of_nat 97) 512;
     fixtures.repeat_char (Ascii.ascii_of_nat 97) 138] in
  (valid_chunking 512 50
   /\ whitespace_only text = false
   /\ chunking.encode fixtures.char_encoding text = Ok tokens
   /\ 512 < Z.of_nat (length tokens)
   /\ chunking.chunk_text fixtures.get_char_encoding text 512 50
        chunking.default_encoding_name = Ok chunks)
  /\ Z.of_nat (length chunks)
     = 1 + (Z.of_nat (length tokens) - 512 + (512 - 50) - 1) / (512 - 50).
Proof.
  split.
  - split; [unfold valid_chunking; lia|].
    split; [vm_compute; reflexivity|].
    split; [vm_compute; reflexivity|].
    split; vm_compute; reflexivity.
  - apply (X1_chunk_count fixtures.get_char_encoding
             fixtures.letters_document 512 50 chunking.default_encoding_name
             fixtures.char_encoding ((fun _ : nat => 97) <$> seq 0 600)
             [fixtures.repeat_char (Ascii.ascii_of_nat 97) 512;
              fixtures.repeat_char (Ascii.ascii_of_nat 97) 138]).
    + unfold valid_chunking. lia.
    + vm_compute. reflexivity.
    + reflexivity.
    + vm_compute. reflexivity.
    + vm_compute. reflexivity.
    + vm_compute. reflexivity.
Defined.

Lemma X2_chunk_sizes_witness :
  let text := fixtures.letters_document in
  let tokens := (fun _ : nat => 97) <$> seq 0 600 in
  (valid_chunking 512 50
   /\ whitespace_only text = false
   /\ chunking.encode fixtures.char_encoding text = Ok tokens
   /\ 512 < Z.of_nat (length tokens))
  /\ exists ws : list (list chunking.Token),
       chunking.chunk_text fixtures.get_char_encoding text 512 50
         chunking.default_encoding_name
       = Ok (chunking.decode fixtures.char_encoding <$> ws)
       /\ (forall (j : nat) w,
             ws !! j = Some w -> (S j < length ws)%nat ->
             Z.of_nat (length w) = 512)
       /\ (forall w, last ws = Some w -> 50 < Z.of_nat (length w) <= 512).
Proof.
  split.
  - split; [unfold valid_chunking; lia|].
    split; [vm_compute; reflexivity|].
    split; vm_compute; reflexivity.
  - apply (X2_chunk_sizes fixtures.get_char_encoding
             fixtures.letters_document 512 50 chunking.default_encoding_name
             fixtures.char_encoding ((fun _ : nat => 97) <$> seq 0 600)).
    + unfold valid_chunking. lia.
    + vm_compute. reflexivity.
    + reflexivity.
    + vm_compute. reflexivity.
    + vm_compute. reflexivity.
Defined.


(* ===================================================================== *)
(** * More on the similarity index *)
(* ===================================================================== *)

Section DistanceFacts.
Import faiss_store.




End DistanceFacts.

Section AddFacts.
Import faiss_store.

Variable uuid4 : nat -> string.

Lemma check_dimensions_ok dimension0 embeddings :
  forall i,
    is_ok (check_dimensions dimension0 i embeddings) = true
    <-> Forall (fun v : Vector => Z.of_nat (length v) = dimension0) embeddings.
Proof.
  induction embeddings as [|v embeddings IH]; intros i; simpl.
  - split; [constructor | reflexivity].
  - destruct (Z.of_nat (length v) =? dimension0) eqn:Hd; simpl.
    + apply Z.eqb_eq in Hd. rewrite IH. split.
      * intros H. constructor; assumption.
      * intros H. inversion H; assumption.
    + apply Z.eqb_neq in Hd. split; [discriminate|].
      intros H. inversion H; contradiction.
Qed.

(** A call of [add_documents] that raises changes nothing. *)
Lemma add_documents_err embeddings metadata_in rt e rt' :
  add_documents uuid4 embeddings metadata_in rt = (Err e, rt') -> rt' = rt.
Proof.
  unfold add_documents. destruct (negb _); [intros [= _ <-]; reflexivity|].
  destruct (_ =? 0)%nat; [intros [= _ <-]; reflexivity|].
  destruct (check_dimensions _ _ _); [discriminate|].
  intros [= _ <-]. reflexivity.
Qed.

Lemma add_documents_fit embeddings metadata_in rt ids rt' :
  add_documents uuid4 embeddings metadata_in rt = (Ok ids, rt') ->
  Forall (fun v : Vector => Z.of_nat (length v) = dimension (vector_store rt))
    embeddings
  /\ dimension (vector_store rt') = dimension (vector_store rt)
  /\ uuid_calls rt' = (uuid_calls rt + length embeddings)%nat.
Proof.
  unfold add_documents. destruct (negb _); [discriminate|].
  destruct (_ =? 0)%nat; [discriminate|].
  pose proof (check_dimensions_ok (dimension (vector_store rt)) embeddings 0)
    as Hcheck.
  destruct (check_dimensions _ _ _); [|discriminate].
  intros [= _ <-]. simpl. split; [apply Hcheck; reflexivity | auto].
Qed.

(** X5. [add_documents] succeeds exactly on a non-empty batch with one
    metadata dictionary per vector and every vector of the store's
    dimension; a call that raises leaves the store, and the identifier
    supply, as they were. *)
Theorem X5_add_documents_validation embeddings metadata_in rt :
  (is_ok (fst (add_documents uuid4 embeddings metadata_in rt)) = true
   <-> length embeddings = length metadata_in
       /\ embeddings <> []
       /\ Forall (fun v : Vector =>
                    Z.of_nat (length v) = dimension (vector_store rt))
            embeddings)
  /\ (is_ok (fst (add_documents uuid4 embeddings metadata_in rt)) = false ->
      snd (add_documents uuid4 embeddings metadata_in rt) = rt).
Proof.
  unfold add_documents. cbv zeta.
  destruct (length embeddings =? length metadata_in)%nat eqn:Hlen; simpl.
  2:{ apply Nat.eqb_neq in Hlen. split; [|reflexivity].
      split; [discriminate | tauto]. }
  apply Nat.eqb_eq in Hlen.
  destruct (length embeddings =? 0)%nat eqn:Hz; simpl.
  { apply Nat.eqb_eq in Hz. split; [|reflexivity].
    split; [discriminate|]. intros (_ & Hne & _).
    destruct embeddings; [contradiction | discriminate]. }
  apply Nat.eqb_neq in Hz.
  pose proof (check_dimensions_ok (dimension (vector_store rt)) embeddings 0)
    as Hcheck.
  destruct (check_dimensions (dimension (vector_store rt)) 0 embeddings)
    as [u|e]; simpl in *.
  - split; [|discriminate]. split; [intros _|reflexivity].
    split; [exact Hlen|]. split; [|apply Hcheck; reflexivity].
    intros ->. apply Hz. reflexivity.
  - split; [|reflexivity]. split; [discriminate|].
    intros (_ & _ & Hall). apply Hcheck in Hall. discriminate.
Qed.

(** X6. The store is append-only: a successful [add_documents] of [n]
    vectors returns [n] identifiers, raises the count by [n], keeps the
    dimension and keeps every earlier vector and metadata dictionary at
    its position. *)
Theorem X6_add_documents_appends embeddings metadata_in rt ids rt' :
  add_documents uuid4 embeddings metadata_in rt = (Ok ids, rt') ->
  length ids = length embeddings
  /\ get_document_count (vector_store rt')
     = get_document_count (vector_store rt) + Z.of_nat (length embeddings)
  /\ dimension (vector_store rt') = dimension (vector_store rt)
  /\ (forall i v,
        index (vector_store rt) !! i = Some v ->
        index (vector_store rt') !! i = Some v)
  /\ (forall i meta,
        metadata (vector_store rt) !! i = Some meta ->
        metadata (vector_store rt') !! i = Some meta).
Proof.
  intros Hadd.
  destruct (add_documents_ok _ _ _ _ _ _ Hadd) as (Hids & Hlen & Hi & Hm).
  split; [rewrite Hids, length_fmap, length_seq; reflexivity|].
  split; [unfold get_document_count, ntotal; rewrite Hi, length_app; lia|].
  split.
  { revert Hadd. unfold add_documents.
    destruct (negb _); [discriminate|].
    destruct (_ =? 0)%nat; [discriminate|].
    destruct (check_dimensions _ _ _); [|discriminate].
    intros [= _ <-]. reflexivity. }
  split.
  - intros i v Hv. rewrite Hi. apply lookup_app_l_Some, Hv.
  - intros i meta Hv. rewrite Hm. apply lookup_app_l_Some, Hv.
Qed.


(** What every store of a history satisfies. *)
Lemma store_history_inv calls0 rt :
  store_history uuid4 calls0 rt ->
  store_ok (vector_store rt) = true
  /\ 0 < dimension (vector_store rt)
  /\ vectors_fit (vector_store rt)
  /\ uuid_calls rt = (calls0 + length (index (vector_store rt)))%nat
  /\ forall i meta,
       metadata (vector_store rt) !! i = Some meta ->
       stored_id meta = Some (VStr (uuid4 (calls0 + i)%nat)).
Proof.
  induction 1 as [d self Hinit | rt embeddings metadata_in r rt' Hh IH Hadd].
  - unfold __init__ in Hinit. destruct (d <=? 0) eqn:Hd; [discriminate|].
    apply Z.leb_gt in Hd. inversion Hinit; subst self. simpl.
    repeat split; [lia | constructor | lia |]. intros i meta Hm.
    rewrite lookup_nil in Hm. discriminate.
  - destruct IH as (Hok & Hdim & Hfit & Hcalls & Hids).
    pose proof (add_documents_store_ok _ _ _ _ _ _ Hok Hadd) as Hok'.
    destruct r as [ids|e];
      [|apply add_documents_err in Hadd; subst rt'; auto].
    destruct (add_documents_ok _ _ _ _ _ _ Hadd) as (_ & _ & Hi & Hm).
    destruct (add_documents_fit _ _ _ _ _ Hadd) as (Hall & Hd' & Hc').
    destruct (store_ok_inv _ Hok) as [Hlock _].
    split; [exact Hok'|]. split; [lia|]. split.
    { unfold vectors_fit. rewrite Hi, Hd'. apply Forall_app. auto. }
    split; [rewrite Hc', Hcalls, Hi, length_app; lia|].
    intros i meta Hmeta.
    destruct (decide (i < length (metadata (vector_store rt)))%nat) as [Hlt|Hge].
    + apply Hids. rewrite Hm, lookup_app_l in Hmeta by exact Hlt. exact Hmeta.
    + replace i with (length (metadata (vector_store rt))
                      + (i - length (metadata (vector_store rt))))%nat
        in Hmeta by lia.
      unfold stored_id.
      rewrite (add_documents_document_id _ _ _ _ _ _ Hadd _ _ Hmeta).
      rewrite Hcalls, <- Hlock. do 3 f_equal. lia.
Qed.

(** X8. Invariant of the store: whatever batches were added or rejected since
    [__init__], the store holds one metadata dictionary, with an
    identifier, per vector, its dimension is positive and every stored
    vector has it. *)
Theorem X8_store_invariant calls0 rt :
  store_history uuid4 calls0 rt ->
  length (metadata (vector_store rt)) = length (index (vector_store rt))
  /\ Forall (fun meta => is_Some (stored_id meta))
       (metadata (vector_store rt))
  /\ 0 < dimension (vector_store rt)
  /\ vectors_fit (vector_store rt).
Proof.
  intros Hh. destruct (store_history_inv _ _ Hh) as (Hok & Hd & Hfit & _).
  destruct (store_ok_inv _ Hok) as [Hlock Hids].
  split; [exact Hlock|]. split; [|auto].
  apply Forall_forall. intros meta Hin.
  apply list_elem_of_lookup in Hin as [i Hi]. apply (Hids i), Hi.
Qed.

(** X9. No two records of a store share an identifier, provided [uuid4]
    never returns the same identifier twice. *)
Theorem X9_identifiers_are_unique calls0 rt :
  Inj (=) (=) uuid4 ->
  store_history uuid4 calls0 rt ->
  NoDup (stored_id <$> metadata (vector_store rt)).
Proof.
  intros Hinj Hh.
  destruct (store_history_inv _ _ Hh) as (_ & _ & _ & _ & Hids).
  apply NoDup_alt. intros i j x. rewrite !list_lookup_fmap.
  destruct (metadata (vector_store rt) !! i) as [mi|] eqn:Hi; [|discriminate].
  destruct (metadata (vector_store rt) !! j) as [mj|] eqn:Hj; [|discriminate].
  simpl. rewrite (Hids _ _ Hi), (Hids _ _ Hj). intros [= <-] [= Heq].
  apply Hinj in Heq. lia.
Qed.

End AddFacts.


Section StoreRuns.
Import faiss_store fixtures more_fixtures.

Lemma uuid_of_call_inj : Inj (=) (=) uuid_of_call.
Proof.
  intros i j Heq. unfold uuid_of_call in Heq.
  apply String.app_inj in Heq. apply pretty_nat_inj in Heq. exact Heq.
Qed.

(** The store made by [FAISSVectorStore(3)] and one [add_documents]. *)
Lemma one_record_history : store_history uuid_of_call 0 one_record_runtime.
Proof.
  apply (history_add uuid_of_call 0 fresh_runtime [e1] [hello_metadata]
           (Ok ["uuid-0"%string]) one_record_runtime).
  - apply (history_init uuid_of_call 0 3 empty_store). reflexivity.
  - vm_compute. reflexivity.
Qed.

(** The same store after a rejected batch and a batch of two vectors. *)
Lemma three_record_history :
  store_history uuid_of_call 0 three_record_runtime.
Proof.
  eapply history_add; [eapply history_add; [exact one_record_history|]|].
  - apply surjective_pairing.
  - apply surjective_pairing.
Qed.

End StoreRuns.

Lemma X6_add_documents_appends_witness :
  let rt := fixtures.fresh_runtime in
  let rt' := more_fixtures.one_record_runtime in
  let embeddings := [more_fixtures.e1] in
  let ids := ["uuid-0"%string] in
  faiss_store.add_documents fixtures.uuid_of_call embeddings
    [more_fixtures.hello_metadata] rt = (Ok ids, rt')
  /\ length ids = length embeddings
  /\ faiss_store.get_document_count (faiss_store.vector_store rt')
     = faiss_store.get_document_count (faiss_store.vector_store rt)
       + Z.of_nat (length embeddings)
  /\ faiss_store.dimension (faiss_store.vector_store rt')
     = faiss_store.dimension (faiss_store.vector_store rt)
  /\ (forall i v,
        faiss_store.index (faiss_store.vector_store rt) !! i = Some v ->
        faiss_store.index (faiss_store.vector_store rt') !! i = Some v)
  /\ (forall i meta,
        faiss_store.metadata (faiss_store.vector_store rt) !! i = Some meta ->
        faiss_store.metadata (faiss_store.vector_store rt') !! i = Some meta).
Proof.
  split; [vm_compute; reflexivity|].
  apply (X6_add_documents_appends fixtures.uuid_of_call [more_fixtures.e1]
           [more_fixtures.hello_metadata] fixtures.fresh_runtime
           ["uuid-0"%string] more_fixtures.one_record_runtime).
  vm_compute. reflexivity.
Defined.


Lemma X8_store_invariant_witness :
  let self := faiss_store.vector_store more_fixtures.three_record_runtime in
  faiss_store.ntotal self = 3
  /\ length (faiss_store.metadata self) = length (faiss_store.index self)
  /\ Forall (fun meta => is_Some (stored_id meta)) (faiss_store.metadata self)
  /\ 0 < faiss_store.dimension self
  /\ vectors_fit self.
Proof.
  split; [vm_compute; reflexivity|].
  apply (X8_store_invariant fixtures.uuid_of_call 0
           more_fixtures.three_record_runtime).
  exact three_record_history.
Defined.

Lemma X9_identifiers_are_unique_witness :
  let self := faiss_store.vector_store more_fixtures.three_record_runtime in
  faiss_store.ntotal self = 3
  /\ NoDup (stored_id <$> faiss_store.metadata self).
Proof.
  split; [vm_compute; reflexivity|].
  apply (X9_identifiers_are_unique fixtures.uuid_of_call 0
           more_fixtures.three_record_runtime).
  - exact uuid_of_call_inj.
  - exact three_record_history.
Defined.

Section MoreSearchFacts.
Import faiss_store.

(** After its three checks, [similarity_search] builds its results from
    the [min k ntotal] nearest pairs of the scan. *)
Lemma similarity_search_run self query k :
  0 < ntotal self -> 0 < k ->
  Z.of_nat (length query) = dimension self ->
  similarity_search self query k
  = build_results (metadata self)
      (take (Z.to_nat (Z.min k (ntotal self)))
         (sort_by_distance (scan (index self) query))).
Proof.
  intros Hn Hk Hdim. unfold similarity_search.
  assert (H0 : (ntotal self =? 0) = false) by (apply Z.eqb_neq; lia).
  assert (H1 : (k <=? 0) = false) by (apply Z.leb_gt; lia).
  rewrite H0, H1, (proj2 (Z.eqb_eq _ _) Hdim). simpl negb. cbv iota zeta.
  destruct (IndexFlatL2_search_no_padding (index self) query
              (Z.min k (ntotal self))) as [-> _];
    [unfold ntotal in *; lia | reflexivity].
Qed.

(** A search that returns has passed the three checks. *)
Lemma similarity_search_ok_inv self query k results :
  similarity_search self query k = Ok results ->
  0 < ntotal self /\ 0 < k /\ Z.of_nat (length query) = dimension self.
Proof.
  unfold similarity_search.
  destruct (ntotal self =? 0) eqn:H0; [discriminate|].
  destruct (k <=? 0) eqn:H1; [discriminate|].
  destruct (Z.of_nat (length query) =? dimension self) eqn:H2;
    [|discriminate].
  intros _. apply Z.eqb_neq in H0. apply Z.leb_gt in H1. apply Z.eqb_eq in H2.
  unfold ntotal in *. lia.
Qed.

(** The pairs of the scan taken by a search, and their labels. *)
Lemma found_in_scan xb query (n : nat) p :
  p ∈ take n (sort_by_distance (scan xb query)) ->
  exists (i : nat) v, xb !! i = Some v /\ p = (sq_l2 query v, Z.of_nat i).
Proof.
  intros Hp. apply elem_of_scan. rewrite <- (sort_by_distance_perm _).
  eapply subseteq_take, Hp.
Qed.



Lemma similarity_search_ok self query k :
  store_ok self = true ->
  0 < ntotal self -> 0 < k ->
  Z.of_nat (length query) = dimension self ->
  exists results, similarity_search self query k = Ok results.
Proof.
  intros Hok Hn Hk Hdim. rewrite similarity_search_run by assumption.
  destruct (build_results_found self query
              (take (Z.to_nat (Z.min k (ntotal self)))
                 (sort_by_distance (scan (index self) query))) Hok)
    as (results & -> & _); [|eauto].
  apply Forall_forall. intros p Hp. apply elem_of_scan.
  eapply found_in_scan, Hp.
Qed.

(** X10. On a store in lock step, [similarity_search] returns a result
    exactly when the store is not empty, [k] is positive and the query
    has the store's dimension; on an empty store the error is that of the
    emptiness check, whatever [k] and the query are. *)
Theorem X10_similarity_search_succeeds_iff self query k :
  store_ok self = true ->
  (is_ok (similarity_search self query k) = true
   <-> 0 < ntotal self /\ 0 < k
       /\ Z.of_nat (length query) = dimension self)
  /\ (is_empty self = true ->
      similarity_search self query k
      = Err (ValueError "Cannot search empty index")).
Proof.
  intros Hok. split.
  - split.
    + destruct (similarity_search self query k) as [results|] eqn:Hs;
        [|discriminate]. intros _.
      eapply similarity_search_ok_inv, Hs.
    + intros (Hn & Hk & Hdim).
      destruct (similarity_search_ok self query k Hok Hn Hk Hdim)
        as [results ->]. reflexivity.
  - unfold is_empty, similarity_search. intros ->. reflexivity.
Qed.









End MoreSearchFacts.


Lemma X10_similarity_search_succeeds_iff_witness :
  let self := fixtures.two_vector_store in
  let query := more_fixtures.e1 in
  store_ok self = true
  /\ (is_ok (faiss_store.similarity_search self query 5) = true
      <-> 0 < faiss_store.ntotal self /\ 0 < 5
          /\ Z.of_nat (length query) = faiss_store.dimension self)
  /\ (faiss_store.is_empty self = true ->
      faiss_store.similarity_search self query 5
      = Err (ValueError "Cannot search empty index")).
Proof.
  split; [reflexivity|].
  apply (X10_similarity_search_succeeds_iff fixtures.two_vector_store
           more_fixtures.e1 5).
  reflexivity.
Defined.




(* ===================================================================== *)
(** * More on the ingestion pipeline *)
(* ===================================================================== *)

Section IngestionFacts.
Import chunking faiss_store embedding_service ingestion_pipeline.

Variable get_encoding : string -> option Encoding.
Variable uuid4 : nat -> string.
Variable embeddings_create : list Value -> Result (list Vector).
Variable extract_text : string -> string -> Result string.

(** The ways in which [ingest_document] returns statistics. *)
Lemma ingest_document_ok_inv self document_id file_path content_type
    additional_metadata rt stats rt' :
  ingest_document get_encoding uuid4 embeddings_create extract_text
    self document_id file_path content_type additional_metadata rt
  = (Ok stats, rt') ->
  exists text chunks,
    extract_text file_path content_type = Ok text
    /\ chunk_text get_encoding text (chunk_size self) (chunk_overlap self)
         default_encoding_name = Ok chunks
    /\ stat_document_id stats = document_id
    /\ text_length stats = Z.of_nat (String.length text)
    /\ chunks_created stats = Z.of_nat (length chunks)
    /\ ((chunks = [] /\ rt' = rt
         /\ embeddings_generated stats = 0 /\ chunks_stored stats = 0)
        \/ exists embeddings ids,
             chunks <> []
             /\ generate_embeddings embeddings_create (VStr <$> chunks)
                = Ok embeddings
             /\ add_documents uuid4 embeddings
                  (imap (fun i c =>
                           chunk_metadata document_id file_path content_type
                             additional_metadata (Z.of_nat i) c) chunks) rt
                = (Ok ids, rt')
             /\ embeddings_generated stats = Z.of_nat (length embeddings)
             /\ chunks_stored stats = Z.of_nat (length ids)).
Proof.
  unfold ingest_document.
  destruct (extract_text file_path content_type) as [text|] eqn:Htext;
    [|discriminate].
  destruct (chunk_text _ _ _ _ _) as [chunks|] eqn:Hchunks; [|discriminate].
  destruct (Z.of_nat (length chunks) =? 0) eqn:Hz.
  - apply Z.eqb_eq in Hz. intros [= <- <-]. exists text, chunks. simpl.
    split; [reflexivity|]. split; [exact Hchunks|].
    do 2 (split; [reflexivity|]). split; [lia|].
    left. destruct chunks; [auto | discriminate].
  - apply Z.eqb_neq in Hz.
    destruct (generate_embeddings _ _) as [embeddings|] eqn:Hemb;
      [|discriminate].
    destruct (add_documents _ _ _ _) as [[ids|] rt1] eqn:Hadd;
      [|discriminate].
    intros [= <- <-]. exists text, chunks. simpl.
    split; [reflexivity|]. split; [exact Hchunks|].
    do 3 (split; [reflexivity|]).
    right. exists embeddings, ids.
    split; [intros ->; apply Hz; reflexivity|]. auto.
Qed.

(** X14. Whenever ingestion returns, the three counts it reports are equal,
    and the store has grown by exactly that many records. *)
Theorem X14_ingestion_counts self document_id file_path content_type
    additional_metadata rt stats rt' :
  ingest_document get_encoding uuid4 embeddings_create extract_text
    self document_id file_path content_type additional_metadata rt
  = (Ok stats, rt') ->
  chunks_created stats = embeddings_generated stats
  /\ chunks_created stats = chunks_stored stats
  /\ get_document_count (vector_store rt')
     = get_document_count (vector_store rt) + chunks_created stats.
Proof.
  intros Hrun.
  destruct (ingest_document_ok_inv _ _ _ _ _ _ _ _ Hrun)
    as (text & chunks & _ & _ & _ & _ & Hc
        & [(-> & -> & He & Hs) | (embeddings & ids & _ & _ & Hadd & He & Hs)]).
  - rewrite Hc, He, Hs. simpl. lia.
  - destruct (add_documents_ok _ _ _ _ _ _ Hadd) as (Hids & Hlen & Hi & _).
    rewrite length_imap in Hlen.
    rewrite Hc, He, Hs, Hids, length_fmap, length_seq, Hlen.
    unfold get_document_count, ntotal. rewrite Hi, length_app. lia.
Qed.

(** X15. A document whose extracted text is blank is ingested as a no-op:
    zero counts, and the store untouched, whatever the embedding provider
    would do. *)
Theorem X15_blank_document_is_a_no_op self document_id file_path content_type
    additional_metadata rt text :
  valid_chunking (chunk_size self) (chunk_overlap self) ->
  extract_text file_path content_type = Ok text ->
  whitespace_only text = true ->
  ingest_document get_encoding uuid4 embeddings_create extract_text
    self document_id file_path content_type additional_metadata rt
  = (Ok {| stat_document_id := document_id; chunks_created := 0;
           embeddings_generated := 0; chunks_stored := 0;
           text_length := Z.of_nat (String.length text) |}, rt).
Proof.
  intros (Hsize & Hov0 & Hov) Htext Hblank. unfold ingest_document.
  rewrite Htext. unfold chunk_text.
  assert (H0 : (chunk_size self <=? 0) = false) by (apply Z.leb_gt; lia).
  assert (H1 : (chunk_overlap self <? 0) = false) by (apply Z.ltb_ge; lia).
  rewrite H0, H1.
  destruct (Z_lt_dec (chunk_overlap self) (chunk_size self)); [|lia].
  rewrite blank_iff_whitespace_only, Hblank. reflexivity.
Qed.

(** X16. An ingestion that raises stores nothing: the store and the
    identifier supply are as before the call. *)
Theorem X16_failed_ingestion_stores_nothing self document_id file_path
    content_type additional_metadata rt e rt' :
  ingest_document get_encoding uuid4 embeddings_create extract_text
    self document_id file_path content_type additional_metadata rt
  = (Err e, rt') ->
  rt' = rt.
Proof.
  unfold ingest_document.
  destruct (extract_text file_path content_type) as [text|];
    [|intros [= _ <-]; reflexivity].
  destruct (chunk_text _ _ _ _ _) as [chunks|];
    [|intros [= _ <-]; reflexivity].
  destruct (Z.of_nat (length chunks) =? 0); [discriminate|].
  destruct (generate_embeddings _ _) as [embeddings|];
    [|intros [= _ <-]; reflexivity].
  destruct (add_documents _ _ _ _) as [[ids|e'] rt1] eqn:Hadd;
    [discriminate|].
  intros [= _ <-]. eapply add_documents_err, Hadd.
Qed.


Lemma add_documents_succeeds embeddings metadata_in rt :
  length embeddings = length metadata_in ->
  embeddings <> [] ->
  Forall (fun v : Vector => Z.of_nat (length v) = dimension (vector_store rt))
    embeddings ->
  exists ids rt', add_documents uuid4 embeddings metadata_in rt = (Ok ids, rt').
Proof.
  intros Hlen Hne Hall. unfold add_documents.
  rewrite (proj2 (Nat.eqb_eq _ _) Hlen). simpl.
  destruct embeddings as [|v embeddings]; [contradiction|]. simpl Nat.eqb.
  cbv iota.
  pose proof (check_dimensions_ok (dimension (vector_store rt))
                (v :: embeddings) 0) as Hcheck.
  destruct (check_dimensions _ 0 (v :: embeddings)); [eauto|].
  apply Hcheck in Hall. discriminate.
Qed.

(** X18. Ingestion is not idempotent: ingesting the same document again, with
    providers that answer as before, succeeds with the same statistics
    and stores every chunk a second time. *)
Theorem X18_reingestion_duplicates self document_id file_path content_type
    additional_metadata rt stats rt1 :
  ingest_document get_encoding uuid4 embeddings_create extract_text
    self document_id file_path content_type additional_metadata rt
  = (Ok stats, rt1) ->
  exists rt2,
    ingest_document get_encoding uuid4 embeddings_create extract_text
      self document_id file_path content_type additional_metadata rt1
    = (Ok stats, rt2)
    /\ get_document_count (vector_store rt2)
       = get_document_count (vector_store rt) + 2 * chunks_created stats.
Proof.
  intros Hrun.
  destruct (ingest_document_ok_inv _ _ _ _ _ _ _ _ Hrun)
    as (text & chunks & Htext & Hchunks & Hid & Htl & Hc
        & [(-> & -> & He & Hs) | (embeddings & ids & Hne & Hemb & Hadd & He
                                  & Hs)]).
  - exists rt. split; [exact Hrun|]. rewrite Hc. simpl. lia.
  - destruct (add_documents_ok _ _ _ _ _ _ Hadd) as (Hids & Hlen & Hi & _).
    destruct (add_documents_fit _ _ _ _ _ _ Hadd) as (Hall & Hd & _).
    rewrite length_imap in Hlen.
    destruct (add_documents_succeeds embeddings
                (imap (fun i c =>
                         chunk_metadata document_id file_path content_type
                           additional_metadata (Z.of_nat i) c) chunks) rt1)
      as (ids2 & rt2 & Hadd2).
    { rewrite length_imap. exact Hlen. }
    { intros ->. destruct chunks; [contradiction | discriminate]. }
    { rewrite Hd. exact Hall. }
    destruct (add_documents_ok _ _ _ _ _ _ Hadd2) as (Hids2 & _ & Hi2 & _).
    exists rt2. split.
    + unfold ingest_document. rewrite Htext, Hchunks.
      destruct (Z.of_nat (length chunks) =? 0) eqn:Hz;
        [apply Z.eqb_eq in Hz; destruct chunks; [contradiction | discriminate]|].
      rewrite Hemb, Hadd2. destruct stats as [sid cc eg cs tl].
      simpl in *. subst. do 2 f_equal.
      rewrite !length_fmap, !length_seq. reflexivity.
    + unfold get_document_count, ntotal. rewrite Hi2, Hi, !length_app, Hc.
      lia.
Qed.

End IngestionFacts.


Lemma X14_ingestion_counts_witness :
  let rt := fixtures.fresh_runtime in
  exists stats rt',
    ingestion_pipeline.ingest_document fixtures.get_char_encoding
      fixtures.uuid_of_call fixtures.unit_embeddings fixtures.hello_extract
      ingestion_pipeline.default_pipeline "doc-1" "data/uploads/doc-1.txt"
      "text/plain" None rt = (Ok stats, rt')
    /\ ingestion_pipeline.chunks_created stats = 1
    /\ ingestion_pipeline.chunks_created stats
       = ingestion_pipeline.embeddings_generated stats
    /\ ingestion_pipeline.chunks_created stats
       = ingestion_pipeline.chunks_stored stats
    /\ faiss_store.get_document_count (faiss_store.vector_store rt')
       = faiss_store.get_document_count (faiss_store.vector_store rt)
         + ingestion_pipeline.chunks_created stats.
Proof.
  do 2 eexists. split; [vm_compute; reflexivity|].
  split; [reflexivity|].
  apply (X14_ingestion_counts fixtures.get_char_encoding
           fixtures.uuid_of_call fixtures.unit_embeddings
           fixtures.hello_extract ingestion_pipeline.default_pipeline
           "doc-1" "data/uploads/doc-1.txt" "text/plain" None
           fixtures.fresh_runtime).
  vm_compute. reflexivity.
Defined.

Lemma X15_blank_document_is_a_no_op_witness :
  let self := ingestion_pipeline.default_pipeline in
  let rt := more_fixtures.one_record_runtime in
  (valid_chunking (ingestion_pipeline.chunk_size self)
     (ingestion_pipeline.chunk_overlap self)
   /\ more_fixtures.blank_extract "data/uploads/doc-2.txt" "text/plain"
      = Ok "   "%string
   /\ whitespace_only "   " = true)
  /\ ingestion_pipeline.ingest_document fixtures.get_char_encoding
       fixtures.uuid_of_call fixtures.unit_embeddings
       more_fixtures.blank_extract self "doc-2" "data/uploads/doc-2.txt"
       "text/plain" None rt
     = (Ok {| ingestion_pipeline.stat_document_id := "doc-2";
              ingestion_pipeline.chunks_created := 0;
              ingestion_pipeline.embeddings_generated := 0;
              ingestion_pipeline.chunks_stored := 0;
              ingestion_pipeline.text_length :=
                Z.of_nat (String.length "   ") |}, rt).
Proof.
  assert (Hv : valid_chunking
                 (ingestion_pipeline.chunk_size
                    ingestion_pipeline.default_pipeline)
                 (ingestion_pipeline.chunk_overlap
                    ingestion_pipeline.default_pipeline))
    by (vm_compute; repeat split; congruence).
  split; [split; [exact Hv | split; reflexivity]|].
  apply (X15_blank_document_is_a_no_op fixtures.get_char_encoding
           fixtures.uuid_of_call fixtures.unit_embeddings
           more_fixtures.blank_extract ingestion_pipeline.default_pipeline
           "doc-2" "data/uploads/doc-2.txt" "text/plain" None
           more_fixtures.one_record_runtime "   ");
    [exact Hv | reflexivity | reflexivity].
Defined.

Lemma X16_failed_ingestion_stores_nothing_witness :
  let rt := more_fixtures.narrow_runtime in
  exists e rt',
    ingestion_pipeline.ingest_document fixtures.get_char_encoding
      fixtures.uuid_of_call fixtures.unit_embeddings fixtures.hello_extract
      ingestion_pipeline.default_pipeline "doc-1" "data/uploads/doc-1.txt"
      "text/plain" None rt = (Err e, rt')
    /\ exn_class e = "ValueError"%string
    /\ rt' = rt.
Proof.
  do 2 eexists. split; [vm_compute; reflexivity|].
  split; [reflexivity|].
  eapply (X16_failed_ingestion_stores_nothing fixtures.get_char_encoding
            fixtures.uuid_of_call fixtures.unit_embeddings
            fixtures.hello_extract ingestion_pipeline.default_pipeline
            "doc-1" "data/uploads/doc-1.txt" "text/plain" None
            more_fixtures.narrow_runtime).
  vm_compute. reflexivity.
Defined.


Lemma X18_reingestion_duplicates_witness :
  let rt := fixtures.fresh_runtime in
  exists stats rt1,
    ingestion_pipeline.ingest_document fixtures.get_char_encoding
      fixtures.uuid_of_call fixtures.unit_embeddings fixtures.hello_extract
      ingestion_pipeline.default_pipeline "doc-1" "data/uploads/doc-1.txt"
      "text/plain" None rt = (Ok stats, rt1)
    /\ exists rt2,
         ingestion_pipeline.ingest_document fixtures.get_char_encoding
           fixtures.uuid_of_call fixtures.unit_embeddings
           fixtures.hello_extract ingestion_pipeline.default_pipeline
           "doc-1" "data/uploads/doc-1.txt" "text/plain" None rt1
         = (Ok stats, rt2)
         /\ faiss_store.get_document_count (faiss_store.vector_store rt2)
            = faiss_store.get_document_count (faiss_store.vector_store rt)
              + 2 * ingestion_pipeline.chunks_created stats.
Proof.
  do 2 eexists. split; [vm_compute; reflexivity|].
  apply (X18_reingestion_duplicates fixtures.get_char_encoding
           fixtures.uuid_of_call fixtures.unit_embeddings
           fixtures.hello_extract ingestion_pipeline.default_pipeline
           "doc-1" "data/uploads/doc-1.txt" "text/plain" None
           fixtures.fresh_runtime).
  vm_compute. reflexivity.
Defined.

(* ===================================================================== *)
(** * More on the orchestrator *)
(* ===================================================================== *)

Section MoreOrchestratorFacts.
Import orchestrator.

Context {W : Type}.
Implicit Types (step : OrchestratorStep W) (m : Machine W) (w : W).

(** What [_execute_step] adds to the trace, and that it leaves the log
    alone. *)
Lemma _execute_step_trace step input_data :
  forall (n : nat) attempt m r m',
    Z.to_nat (retries step - attempt) = n ->
    _execute_step step input_data attempt m = (r, m') ->
    exists t, trace m' = trace m ++ t.
Proof.
  induction n as [n IH] using lt_wf_ind.
  intros attempt m r m' Hn Hrun. rewrite _execute_step_once in Hrun.
  destruct (agent step input_data (world m)) as [[out|e] w0].
  - inversion Hrun; subst. eexists. reflexivity.
  - cbv zeta in Hrun. destruct (attempt <? retries step) eqn:Hlt.
    + apply Z.ltb_lt in Hlt.
      destruct (Qle_bool 0 (retry_delay step)).
      * apply (IH (Z.to_nat (retries step - (attempt + 1)))) in Hrun
          as [t Ht]; [|lia|reflexivity].
        rewrite Ht. simpl. rewrite <- !app_assoc. eexists. reflexivity.
      * inversion Hrun; subst. eexists. reflexivity.
    + destruct (exhausted_spec step input_data e
                  (with_world w0
                     (record_event (EvExecute (name step) attempt) m)))
        as (r0 & m0 & Hex0 & Htr & _).
      rewrite Hex0 in Hrun. inversion Hrun; subst. rewrite Htr. simpl.
      rewrite <- app_assoc. eexists. reflexivity.
Qed.

(** X19. Retry-then-success: when the agent raises [n] times, [n] within the
    retry budget, and then returns, the step returns that output after
    exactly [n + 1] invocations and [n] sleeps of [retry_delay], and its
    failure handler is not called. *)
Theorem X19_retry_until_success step input_data (n : nat) m out w' :
  Z.of_nat n <= retries step ->
  (0 <= retry_delay step)%Q ->
  returns_after (agent step) input_data n (world m) = Some (out, w') ->
  _execute_step step input_data 0 m
  = (Ok out,
     with_world w'
       (add_events (retry_trace (name step) (retry_delay step) 0 n) m))
  /\ invocations (name step)
       (retry_trace (name step) (retry_delay step) 0 n) = S n
  /\ sleeps (retry_trace (name step) (retry_delay step) 0 n) = n.
Proof.
  intros Hn Hd Hret.
  split; [|split; [apply invocations_retry_trace | apply sleeps_retry_trace]].
  assert (Hgen : forall (k : nat) attempt m0,
             attempt + Z.of_nat k <= retries step ->
             returns_after (agent step) input_data k (world m0)
             = Some (out, w') ->
             _execute_step step input_data attempt m0
             = (Ok out,
                with_world w'
                  (add_events
                     (retry_trace (name step) (retry_delay step) attempt k)
                     m0))).
  { induction k as [|k IH]; intros attempt m0 Hk Hr;
      rewrite _execute_step_once; simpl in Hr;
      destruct (agent step input_data (world m0)) as [[o|e] w0];
      try discriminate.
    - inversion Hr; subst. reflexivity.
    - cbv zeta. rewrite (proj2 (Z.ltb_lt _ _)) by lia.
      rewrite (proj2 (Qle_bool_iff _ _) Hd).
      rewrite (IH (attempt + 1)); [|lia|exact Hr].
      f_equal. unfold with_world, add_events, record_event. simpl.
      f_equal. rewrite <- !app_assoc. reflexivity. }
  apply Hgen; [lia | exact Hret].
Qed.

(** With a retry budget of zero or less the agent is invoked exactly
    once: the step returns its output, or takes the failure path with its
    exception, without sleeping. *)
Lemma _execute_step_no_retry_budget step input_data m :
  retries step <= 0 ->
  _execute_step step input_data 0 m
  = match agent step input_data (world m) with
    | (Ok out, w) =>
        (Ok out, with_world w (add_events [EvExecute (name step) 0] m))
    | (Err e, w) =>
        exhausted step input_data e
          (with_world w (add_events [EvExecute (name step) 0] m))
    end.
Proof.
  intros Hr. rewrite _execute_step_once.
  destruct (agent step input_data (world m)) as [[out|e] w]; [reflexivity|].
  cbv zeta. rewrite (proj2 (Z.ltb_ge _ _)) by lia. reflexivity.
Qed.

(** With a negative retry delay the first retry never happens:
    [time.sleep] raises, and its [ValueError] leaves the step in place of
    the agent's exception, after one invocation and without any call of
    the failure handler. *)
Lemma _execute_step_negative_delay step input_data m e w :
  0 < retries step ->
  (retry_delay step < 0)%Q ->
  agent step input_data (world m) = (Err e, w) ->
  _execute_step step input_data 0 m
  = (Err (ValueError "sleep length must be non-negative"),
     with_world w (add_events [EvExecute (name step) 0] m)).
Proof.
  intros Hr Hd Ha. rewrite _execute_step_once, Ha. cbv zeta.
  rewrite (proj2 (Z.ltb_lt _ _)) by lia.
  destruct (Qle_bool 0 (retry_delay step)) eqn:Hle; [|reflexivity].
  apply Qle_bool_iff in Hle. exfalso. exact (Qlt_not_le _ _ Hd Hle).
Qed.



End MoreOrchestratorFacts.


Lemma X19_retry_until_success_witness :
  let step := more_fixtures.flaky_step in
  let out : Dict := {["content" := VStr "done"]} in
  let m := orchestrator.boot 0%nat in
  (Z.of_nat 2 <= orchestrator.retries step
   /\ (0 <= orchestrator.retry_delay step)%Q
   /\ returns_after (orchestrator.agent step) ∅ 2 (orchestrator.world m)
      = Some (out, 3%nat))
  /\ orchestrator._execute_step step ∅ 0 m
     = (Ok out,
        orchestrator.with_world 3%nat
          (add_events
             (retry_trace (orchestrator.name step)
                (orchestrator.retry_delay step) 0 2) m))
  /\ orchestrator.invocations (orchestrator.name step)
       (retry_trace (orchestrator.name step)
          (orchestrator.retry_delay step) 0 2) = 3%nat
  /\ orchestrator.sleeps
       (retry_trace (orchestrator.name step)
          (orchestrator.retry_delay step) 0 2) = 2%nat.
Proof.
  assert (Hd : (0 <= orchestrator.retry_delay more_fixtures.flaky_step)%Q)
    by discriminate.
  split; [split; [vm_compute; congruence | split; [exact Hd | reflexivity]]|].
  apply (X19_retry_until_success more_fixtures.flaky_step ∅ 2
           (orchestrator.boot 0%nat));
    [vm_compute; congruence | exact Hd | reflexivity].
Defined.


Section RunShapeFacts.
Import orchestrator.

Context {W : Type}.
Implicit Types (step : OrchestratorStep W) (m : Machine W) (w : W).

Lemma replay_app (cumulative_data : Dict) (l1 l2 : list StepLog) :
  replay cumulative_data (l1 ++ l2) = replay (replay cumulative_data l1) l2.
Proof. unfold replay. apply foldl_app. Qed.

(** An agent that always returns makes its step return at the first
    attempt. *)
Lemma _execute_step_returns step input_data m :
  always_returns (agent step) ->
  exists out w,
    agent step input_data (world m) = (Ok out, w)
    /\ _execute_step step input_data 0 m
       = (Ok out, with_world w (add_events [EvExecute (name step) 0] m)).
Proof.
  intros Ha. specialize (Ha input_data (world m)).
  rewrite _execute_step_once.
  destruct (agent step input_data (world m)) as [[out|e] w];
    [|discriminate]. eauto.
Qed.

(** X21. A run in which no agent ever raises completes: every agent is
    invoked exactly once, in the order of the steps, and the log holds one
    SUCCESS entry per step, in order, with the step's position as
    index. *)
Theorem X21_run_without_failures (steps0 : list (OrchestratorStep W))
    initial_input m :
  Forall (fun step => always_returns (agent step)) steps0 ->
  exists final m',
    execute {| steps := steps0 |} initial_input m = (Ok final, m')
    /\ trace m' = trace m ++ ((fun step => EvExecute (name step) 0) <$> steps0)
    /\ get_successful_steps m' = name <$> steps0
    /\ get_failed_steps m' = []
    /\ step_index <$> execution_log m'
       = Z.of_nat <$> seq 0 (length steps0).
Proof.
  intros Hall. rewrite execute_unfold.
  assert (Hgen : forall (steps1 : list (OrchestratorStep W)) (i : nat) cum m0,
             Forall (fun step => always_returns (agent step)) steps1 ->
             exists final m1 entries,
               run_steps (Z.of_nat i) steps1 cum m0 = (Ok final, m1)
               /\ trace m1
                  = trace m0
                    ++ ((fun step => EvExecute (name step) 0) <$> steps1)
               /\ execution_log m1 = execution_log m0 ++ entries
               /\ Forall (fun entry => state entry = SUCCESS) entries
               /\ step_name <$> entries = name <$> steps1
               /\ step_index <$> entries
                  = Z.of_nat <$> seq i (length steps1)).
  { induction steps1 as [|s steps1 IH]; intros i cum m0 Hs; simpl.
    - exists cum, m0, []. unfold ret. rewrite !app_nil_r.
      repeat split. constructor.
    - apply Forall_cons in Hs as [Ha Hs].
      destruct (_execute_step_returns s cum m0 Ha) as (out & w & _ & Hstep).
      unfold bind. rewrite (run_step_success _ _ _ _ _ _ Hstep).
      destruct (IH (S i) (<[name s := VDict out]> cum)
                  (append_log (success_entry s (Z.of_nat i) cum out)
                     (with_world w (add_events [EvExecute (name s) 0] m0)))
                  Hs) as (final & m1 & entries & Hrun & Htr & Hlog & Hst
                          & Hnames & Hidx).
      replace (Z.of_nat i + 1) with (Z.of_nat (S i)) by lia.
      exists final, m1, (success_entry s (Z.of_nat i) cum out :: entries).
      split; [exact Hrun|]. split.
      { rewrite Htr. simpl. rewrite <- app_assoc. reflexivity. }
      split.
      { rewrite Hlog. simpl. rewrite <- app_assoc. reflexivity. }
      split; [constructor; [reflexivity | exact Hst]|].
      split; [rewrite fmap_cons, Hnames; reflexivity|].
      rewrite fmap_cons, Hidx. reflexivity. }
  destruct (Hgen steps0 0%nat initial_input (reset_log m) Hall)
    as (final & m1 & entries & Hrun & Htr & Hlog & Hst & Hnames & Hidx).
  simpl in Hlog. exists final, m1. split; [exact Hrun|].
  split; [exact Htr|]. unfold get_successful_steps, get_failed_steps.
  rewrite Hlog. split; [|split; [|exact Hidx]].
  - rewrite <- Hnames. f_equal. clear -Hst.
    induction Hst as [|entry entries He _ IH]; [reflexivity|].
    rewrite filter_cons_True by exact He. rewrite IH. reflexivity.
  - clear -Hst. induction Hst as [|entry entries He _ IH]; [reflexivity|].
    rewrite filter_cons_False by (rewrite He; discriminate). rewrite IH.
    reflexivity.
Qed.


(** The log of a completed prefix: one SUCCESS entry per step. *)
Lemma run_steps_ok_log (steps1 : list (OrchestratorStep W)) :
  forall i cum m0 final m1,
    run_steps i steps1 cum m0 = (Ok final, m1) ->
    exists entries,
      execution_log m1 = execution_log m0 ++ entries
      /\ Forall (fun entry => state entry = SUCCESS) entries
      /\ step_name <$> entries = name <$> steps1
      /\ final = replay cum entries
      /\ forall (j : nat) entry,
           entries !! j = Some entry ->
           input entry = replay cum (take j entries).
Proof.
  induction steps1 as [|s steps1 IH]; intros i cum m0 final m1; simpl.
  - unfold ret. intros [= <- <-]. exists []. rewrite app_nil_r.
    repeat split; [constructor|]. intros j entry Hj.
    rewrite lookup_nil in Hj. discriminate.
  - unfold bind.
    destruct (_execute_step s cum 0 m0) as [[out|e0] m2] eqn:Hs.
    + pose proof (_execute_step_log s cum _ 0 m0 _ m2 eq_refl Hs) as Hlog.
      rewrite (run_step_success i _ _ _ _ _ Hs). intros Hrun.
      destruct (IH _ _ _ _ _ Hrun) as (entries & Hl & Hst & Hn & Hf & Hin).
      exists (success_entry s i cum out :: entries).
      split; [rewrite Hl; simpl; rewrite Hlog, <- app_assoc; reflexivity|].
      split; [constructor; [reflexivity | exact Hst]|].
      split; [rewrite fmap_cons, Hn; reflexivity|].
      split; [exact Hf|].
      intros [|j] entry; simpl.
      * intros [= <-]. reflexivity.
      * intros Hj. apply (Hin j entry Hj).
    + rewrite (run_step_failure i _ _ _ _ _ Hs). discriminate.
Qed.

Lemma successful_of_success_entries (entries : list StepLog) :
  Forall (fun entry => state entry = SUCCESS) entries ->
  filter (fun entry => state entry = SUCCESS) entries = entries
  /\ filter (fun entry => state entry = FAILED) entries = [].
Proof.
  induction 1 as [|entry entries He _ [IH1 IH2]]; [auto|]. split.
  - rewrite filter_cons_True by exact He. rewrite IH1. reflexivity.
  - rewrite filter_cons_False by (rewrite He; discriminate). exact IH2.
Qed.


(** X23. The log replays the run: the input snapshot of every entry of a
    completed run is the initial input with the outputs recorded before
    it put under their step names, and the returned map is the initial
    input with all recorded outputs put there. *)
Theorem X23_log_replays_the_run (self : Orchestrator W) initial_input m
    final m' :
  execute self initial_input m = (Ok final, m') ->
  final = replay initial_input (execution_log m')
  /\ get_successful_steps m' = name <$> steps self
  /\ forall (j : nat) entry,
       execution_log m' !! j = Some entry ->
       input entry = replay initial_input (take j (execution_log m')).
Proof.
  destruct self as [steps0]. rewrite execute_unfold. intros Hrun.
  destruct (run_steps_ok_log _ _ _ _ _ _ Hrun)
    as (entries & Hl & Hst & Hn & Hf & Hin).
  simpl in Hl. unfold get_successful_steps. rewrite Hl.
  destruct (successful_of_success_entries _ Hst) as [-> _]. auto.
Qed.

(** X24. A completed run returns the initial input extended under the step
    names only: every other key keeps its value, and each step name holds
    a dictionary. *)
Theorem X24_result_keys (self : Orchestrator W) initial_input m final m' :
  execute self initial_input m = (Ok final, m') ->
  (forall key : string,
     key ∉ name <$> steps self -> final !! key = initial_input !! key)
  /\ (forall step,
        step ∈ steps self -> exists out, final !! name step = Some (VDict out)).
Proof.
  destruct self as [steps0]. rewrite execute_unfold. simpl steps.
  intros Hrun. split.
  - intros key Hkey. eapply run_steps_lookup_other; eassumption.
  - revert Hrun. generalize (reset_log m) 0 initial_input.
    induction steps0 as [|s steps0 IH]; intros m0 i cum Hrun step Hin.
    + inversion Hin.
    + simpl in Hrun. unfold bind in Hrun.
      destruct (_execute_step s cum 0 m0) as [[out|e0] m2] eqn:Hs.
      * rewrite (run_step_success i _ _ _ _ _ Hs) in Hrun.
        destruct (decide (name step ∈ name <$> steps0)) as [Hlater|Hnot].
        -- apply list_elem_of_fmap in Hlater as (step' & Heq & Hin').
           rewrite Heq. eapply IH; eassumption.
        -- apply elem_of_cons in Hin as [-> | Hin];
             [|exfalso; apply Hnot, list_elem_of_fmap; eauto].
           rewrite (run_steps_lookup_other _ _ _ _ _ _ _ Hrun Hnot).
           rewrite lookup_insert_eq. eauto.
      * rewrite (run_step_failure i _ _ _ _ _ Hs) in Hrun. discriminate.
Qed.

End RunShapeFacts.


Lemma X21_run_without_failures_witness :
  let steps0 := [fixtures.step_B; more_fixtures.step_C] in
  let m := orchestrator.boot tt in
  Forall (fun step => always_returns (orchestrator.agent step)) steps0
  /\ exists final m',
       orchestrator.execute {| orchestrator.steps := steps0 |} ∅ m
       = (Ok final, m')
       /\ orchestrator.trace m'
          = orchestrator.trace m
            ++ ((fun step =>
                   orchestrator.EvExecute (orchestrator.name step) 0)
                  <$> steps0)
       /\ orchestrator.get_successful_steps m'
          = orchestrator.name <$> steps0
       /\ orchestrator.get_failed_steps m' = []
       /\ orchestrator.step_index <$> orchestrator.execution_log m'
          = Z.of_nat <$> seq 0 (length steps0).
Proof.
  assert (Hall : Forall (fun step => always_returns (orchestrator.agent step))
                   [fixtures.step_B; more_fixtures.step_C])
    by (repeat constructor; intros input_data w; reflexivity).
  split; [exact Hall|].
  apply (X21_run_without_failures [fixtures.step_B; more_fixtures.step_C] ∅
           (orchestrator.boot tt)).
  exact Hall.
Defined.


Lemma X23_log_replays_the_run_witness :
  let self :=
    {| orchestrator.steps := [fixtures.step_B; more_fixtures.step_C] |} in
  exists final m',
    orchestrator.execute self ∅ (orchestrator.boot tt) = (Ok final, m')
    /\ final = replay ∅ (orchestrator.execution_log m')
    /\ orchestrator.get_successful_steps m'
       = orchestrator.name <$> orchestrator.steps self
    /\ forall (j : nat) entry,
         orchestrator.execution_log m' !! j = Some entry ->
         orchestrator.input entry
         = replay ∅ (take j (orchestrator.execution_log m')).
Proof.
  do 2 eexists. split; [vm_compute; reflexivity|].
  eapply (X23_log_replays_the_run
            {| orchestrator.steps :=
                 [fixtures.step_B; more_fixtures.step_C] |}
            ∅ (orchestrator.boot tt)).
  vm_compute. reflexivity.
Defined.

Lemma X24_result_keys_witness :
  let self :=
    {| orchestrator.steps := [fixtures.step_B; more_fixtures.step_C] |} in
  let initial_input : Dict := {["request" := VStr "audit"]} in
  exists final m',
    orchestrator.execute self initial_input (orchestrator.boot tt)
    = (Ok final, m')
    /\ (forall key : string,
          key ∉ orchestrator.name <$> orchestrator.steps self ->
          final !! key = initial_input !! key)
    /\ (forall step,
          step ∈ orchestrator.steps self ->
          exists out, final !! orchestrator.name step = Some (VDict out)).
Proof.
  do 2 eexists. split; [vm_compute; reflexivity|].
  eapply (X24_result_keys
            {| orchestrator.steps :=
                 [fixtures.step_B; more_fixtures.step_C] |}
            {["request" := VStr "audit"]} (orchestrator.boot tt)).
  vm_compute. reflexivity.
Defined.

(* ===================================================================== *)
(** * More on the document understanding agent *)
(* ===================================================================== *)

Section DocumentUnderstandingFacts.
Import faiss_store embedding_service document_understanding.

Variable embeddings_create : list Value -> Result (list Vector).
Variable _call_llm : string -> Result string.
Variable format_value : Value -> string.




End DocumentUnderstandingFacts.

(* ===================================================================== *)
(** * Text extraction and the completion service *)
(* ===================================================================== *)

Section ExtractionFacts.
Import text_extraction.

Variable path_exists : string -> bool.
Variable open_read : string -> Result bytes.
Variable pdf_pages : bytes -> Result (list (Result string)).
Variable utf8_decode : bytes -> Result string.

Abbreviation extract :=
  (extract_text path_exists open_read pdf_pages utf8_decode).

Lemma supported_cases content_type :
  content_type ∈ SUPPORTED_FORMATS ->
  content_type = "application/pdf"%string \/ content_type = "text/plain"%string.
Proof.
  unfold SUPPORTED_FORMATS. rewrite !elem_of_cons.
  intros [? | [? | Hnil]]; [auto | auto | inversion Hnil].
Qed.

(** X26. The content type is validated before the file is touched: a type
    outside the supported formats raises [UnsupportedFileFormatError]
    whether or not the file exists, and a supported type never raises it:
    its errors are [FileNotFoundError], the wrapped read error, or the
    [ValueError] that wraps a parsing or decoding error. *)
Theorem X26_extract_text_format_check file_path content_type :
  (content_type ∉ SUPPORTED_FORMATS ->
   extract file_path content_type
   = Err (UnsupportedFileFormatError content_type))
  /\ (content_type ∈ SUPPORTED_FORMATS ->
      forall e,
        extract file_path content_type = Err e ->
        (path_exists file_path = false
         /\ e = FileNotFoundError ("File not found: " +:+ file_path))
        \/ (path_exists file_path = true
            /\ exn_class e = "OSError"%string
            /\ exists cause, open_read file_path = Err cause
                             /\ exn_cause e = Some cause)
        \/ (exists content cause,
              open_read file_path = Ok content
              /\ exn_class e = "ValueError"%string
              /\ exn_cause e = Some cause)).
Proof.
  unfold extract_text. split.
  - intros Hnot. rewrite bool_decide_eq_false_2 by exact Hnot. reflexivity.
  - intros Hin e. rewrite bool_decide_eq_true_2 by exact Hin. simpl negb.
    cbv iota. unfold _read_file_content.
    destruct (path_exists file_path); simpl;
      [|intros [= <-]; left; auto].
    destruct (open_read file_path) as [content|cause]; simpl;
      [|intros [= <-]; right; left; eauto 6].
    intros He. right. right. exists content.
    destruct (supported_cases _ Hin) as [-> | ->]; simpl in He.
    + unfold _extract_from_pdf in He.
      destruct (rbind (pdf_pages content) _) as [text|cause];
        [discriminate|]. inversion He; subst e. eauto.
    + unfold _extract_from_txt in He.
      destruct (utf8_decode content) as [text|cause]; [discriminate|].
      inversion He; subst e. eauto.
Qed.

Lemma collect_pages_all_ok (texts : list string) :
  collect_pages (Ok <$> texts) = Ok (filter (fun t => str_truthy t = true) texts).
Proof.
  induction texts as [|t texts IH]; [reflexivity|].
  rewrite fmap_cons. simpl. rewrite IH. simpl.
  destruct (str_truthy t) eqn:Ht.
  - rewrite filter_cons_True by exact Ht. reflexivity.
  - rewrite filter_cons_False by congruence. reflexivity.
Qed.

(** X27. The text of a PDF whose pages all extract is the texts of its pages
    that have some, joined by newlines; a PDF without any page text
    yields the empty string and no error. *)
Theorem X27_pdf_text file_path content (texts : list string) :
  path_exists file_path = true ->
  open_read file_path = Ok content ->
  pdf_pages content = Ok (Ok <$> texts) ->
  extract file_path "application/pdf"
  = Ok (document_understanding.join document_understanding.newline
          (filter (fun t => str_truthy t = true) texts))
  /\ (Forall (fun t => t = EmptyString) texts ->
      extract file_path "application/pdf" = Ok EmptyString).
Proof.
  intros Hex Hread Hpages.
  assert (Hrun : extract file_path "application/pdf"
                 = Ok (document_understanding.join
                         document_understanding.newline
                         (filter (fun t => str_truthy t = true) texts))).
  { unfold extract_text, _read_file_content. simpl. rewrite Hex, Hread.
    simpl. unfold _extract_from_pdf. rewrite Hpages. simpl.
    rewrite collect_pages_all_ok. reflexivity. }
  split; [exact Hrun|]. intros Hall. rewrite Hrun. do 2 f_equal.
  clear Hpages Hrun. induction Hall as [|t texts -> _ IH]; [reflexivity|].
  rewrite filter_cons_False by discriminate. exact IH.
Qed.

End ExtractionFacts.

Section GroqFacts.
Import groq.

Variable chat_completions_create : Request -> Result Response.

(** X28. [generate_response] never returns an empty text: what it returns is
    the non-empty content of the first choice of the response to one
    request, which holds the user message last, after the system message
    when there is a non-empty one, and only the sampling parameters that
    were given. *)
Theorem X28_generate_response user_message system_message model temperature
    max_tokens text :
  generate_response chat_completions_create user_message system_message
    model temperature max_tokens = Ok text ->
  text <> EmptyString
  /\ exists rest,
       chat_completions_create
         {| req_model := model;
            req_messages :=
              match system_message with
              | Some (String c s) =>
                  [{| role := "system"; content := String c s |}]
              | _ => []
              end ++ [{| role := "user"; content := user_message |}];
            req_temperature := temperature;
            req_max_tokens := max_tokens |}
       = Ok (Some text :: rest).
Proof.
  unfold generate_response. cbv zeta.
  set (request := {| req_model := model; req_messages := _;
                     req_temperature := temperature;
                     req_max_tokens := max_tokens |}).
  assert (Hreq : request
                 = {| req_model := model;
                      req_messages :=
                        match system_message with
                        | Some (String c s) =>
                            [{| role := "system"; content := String c s |}]
                        | _ => []
                        end ++ [{| role := "user"; content := user_message |}];
                      req_temperature := temperature;
                      req_max_tokens := max_tokens |}).
  { unfold request. destruct system_message as [[|c s]|]; reflexivity. }
  rewrite <- Hreq. clearbody request.
  destruct (chat_completions_create request) as [[|[first|] rest]|];
    simpl; try discriminate.
  destruct first as [|c s]; simpl; [discriminate|].
  intros [= <-]. split; [discriminate | eauto].
Qed.

End GroqFacts.


Lemma X27_pdf_text_witness :
  let texts := ["page one"; EmptyString; "page three"]%string in
  (more_fixtures.any_path_exists "data/uploads/doc-3.pdf" = true
   /\ more_fixtures.empty_file "data/uploads/doc-3.pdf" = Ok []
   /\ more_fixtures.three_pages [] = Ok (Ok <$> texts))
  /\ text_extraction.extract_text more_fixtures.any_path_exists
       more_fixtures.empty_file more_fixtures.three_pages
       more_fixtures.ascii_decode "data/uploads/doc-3.pdf" "application/pdf"
     = Ok (document_understanding.join document_understanding.newline
             (filter (fun t => str_truthy t = true) texts))
  /\ (Forall (fun t => t = EmptyString) texts ->
      text_extraction.extract_text more_fixtures.any_path_exists
        more_fixtures.empty_file more_fixtures.three_pages
        more_fixtures.ascii_decode "data/uploads/doc-3.pdf" "application/pdf"
      = Ok EmptyString).
Proof.
  split; [repeat split|].
  apply (X27_pdf_text more_fixtures.any_path_exists more_fixtures.empty_file
           more_fixtures.three_pages more_fixtures.ascii_decode
           "data/uploads/doc-3.pdf" []
           ["page one"; EmptyString; "page three"]%string); reflexivity.
Defined.

Lemma X28_generate_response_witness :
  let run :=
    groq.generate_response more_fixtures.canned_client "Summarise."
      (Some "Be brief."%string) groq.default_model (Some (1 # 10)%Q) None in
  run = Ok "answer"%string
  /\ "answer"%string <> EmptyString
  /\ exists rest,
       more_fixtures.canned_client
         {| groq.req_model := groq.default_model;
            groq.req_messages :=
              match Some "Be brief."%string with
              | Some (String c s) =>
                  [{| groq.role := "system"; groq.content := String c s |}]
              | _ => []
              end
              ++ [{| groq.role := "user"; groq.content := "Summarise." |}];
            groq.req_temperature := Some (1 # 10)%Q;
            groq.req_max_tokens := None |}
       = Ok (Some "answer"%string :: rest).
Proof.
  split; [reflexivity|].
  apply (X28_generate_response more_fixtures.canned_client "Summarise."
           (Some "Be brief."%string) groq.default_model (Some (1 # 10)%Q)
           None "answer").
  reflexivity.
Defined.

(* ===================================================================== *)
(** * The blueprint flow *)
(* ===================================================================== *)

Section AgentFacts.
Import groq base_agent.

Variable client : Request -> Result Response.
Variable format_value : Value -> string.

Hypothesis client_answers :
  forall request,
    exists c s rest, client request = Ok (Some (String c s) :: rest).







End AgentFacts.

Section FlowFacts.
Import orchestrator faiss_store groq base_agent services.

Variable chat_completions_create : nat -> Request -> Result Response.
Variable embeddings_create : list Value -> Result (list Vector).
Variable format_value : Value -> string.
Variable understanding_prompt discovery_prompt architecture_prompt
         governance_prompt synthesizer_prompt : string.

Abbreviation flow_steps :=
  (blueprint_steps chat_completions_create embeddings_create format_value
     understanding_prompt discovery_prompt architecture_prompt
     governance_prompt synthesizer_prompt).

Abbreviation create_flow :=
  (create_blueprint_orchestrator chat_completions_create embeddings_create
     format_value understanding_prompt discovery_prompt architecture_prompt
     governance_prompt synthesizer_prompt).

Lemma create_flow_steps vector_store self :
  create_flow vector_store = Ok self ->
  self = {| steps := flow_steps vector_store |}.
Proof. intros [= <-]. reflexivity. Qed.


(** X29. The flow on an empty store: the first step raises at both of its
    attempts, whatever the completion service would answer, and the run
    halts there. With a working embedding provider the exception is the
    store's ["Cannot search empty index"]. *)
Theorem X29_flow_on_empty_store vector_store self initial_input
    (m : Machine nat) :
  create_flow vector_store = Ok self ->
  is_empty vector_store = true ->
  exists e m',
    orchestrator.execute self initial_input m = (Err e, m')
    /\ trace m'
       = trace m ++ [EvExecute "understand" 0; EvSleep 1;
                     EvExecute "understand" 1]
    /\ world m' = S (S (world m))
    /\ get_successful_steps m' = []
    /\ ((exists query_embedding others,
           embeddings_create
             [default (VStr document_understanding.default_query)
                (initial_input !! "query")]
           = Ok (query_embedding :: others)) ->
        e = ValueError "Cannot search empty index").
Proof.
  intros Hself Hempty. apply create_flow_steps in Hself. subst self.
  rewrite execute_unfold.
  set (und := fun client : Request -> Result Response =>
                document_understanding._process embeddings_create
                  (_call_llm client
                     (understanding_agent understanding_prompt))
                  format_value vector_store).
  assert (Hraise : forall calls,
             exists e, und (chat_completions_create calls) initial_input
                       = Err e
                       /\ ((exists query_embedding others,
                              embeddings_create
                                [default
                                   (VStr document_understanding.default_query)
                                   (initial_input !! "query")]
                              = Ok (query_embedding :: others)) ->
                           e = ValueError "Cannot search empty index")).
  { intros calls. unfold und.
    pose proof (_process_empty_store_raises embeddings_create
                  (_call_llm (chat_completions_create calls)
                     (understanding_agent understanding_prompt))
                  format_value vector_store initial_input Hempty) as Hno.
    destruct (document_understanding._process _ _ _ _ _) as [out|e] eqn:Hp;
      [discriminate|].
    exists e. split; [reflexivity|]. intros (q & others & Hemb).
    revert Hp. unfold document_understanding._process. cbv zeta.
    unfold embedding_service.generate_embeddings. simpl length.
    simpl Nat.eqb. cbv iota. rewrite Hemb. simpl.
    unfold similarity_search. unfold is_empty in Hempty. rewrite Hempty.
    destruct (default (VInt 5) (initial_input !! "k")); simpl;
      intros [= <-]; reflexivity. }
  destruct (Hraise (world m)) as (e1 & He1 & _).
  destruct (Hraise (S (world m))) as (e2 & He2 & Hspec).
  unfold flow_steps. unfold blueprint_steps. fold und.
  cbn [run_steps]. unfold bind at 1.
  match goal with
  | |- context [run_step 0 ?s initial_input (reset_log m)] =>
      set (step0 := s)
  end.
  assert (Hstep : _execute_step step0 initial_input 0 (reset_log m)
                  = (Err e2,
                     with_world (S (S (world m)))
                       (add_events
                          (retry_trace "understand" 1 0 1) (reset_log m)))).
  { rewrite (_execute_step_exhausts step0 initial_input 1 0 (reset_log m)
               e2 (S (S (world m)))); [reflexivity | reflexivity
                                       | discriminate |].
    simpl. unfold as_agent, base_agent.execute. rewrite He1, He2.
    reflexivity. }
  rewrite (run_step_failure 0 _ _ _ _ _ Hstep).
  eexists _, _. split; [reflexivity|]. simpl.
  split; [reflexivity|]. split; [reflexivity|]. split; [reflexivity|].
  exact Hspec.
Qed.


End FlowFacts.



Lemma X29_flow_on_empty_store_witness :
  let vector_store := fixtures.empty_store in
  let m := orchestrator.boot 0%nat in
  exists self,
    (more_fixtures.canned_flow vector_store = Ok self
     /\ faiss_store.is_empty vector_store = true)
    /\ exists e m',
         orchestrator.execute self fixtures.route_input m = (Err e, m')
         /\ orchestrator.trace m'
            = orchestrator.trace m
              ++ [orchestrator.EvExecute "understand" 0;
                  orchestrator.EvSleep 1;
                  orchestrator.EvExecute "understand" 1]
         /\ orchestrator.world m' = S (S (orchestrator.world m))
         /\ orchestrator.get_successful_steps m' = []
         /\ ((exists query_embedding others,
                fixtures.unit_embeddings
                  [default (VStr document_understanding.default_query)
                     (fixtures.route_input !! "query")]
                = Ok (query_embedding :: others)) ->
             e = ValueError "Cannot search empty index").
Proof.
  eexists. split; [split; reflexivity|].
  apply (X29_flow_on_empty_store more_fixtures.canned_chat
           fixtures.unit_embeddings fixtures.plain_format
           "Understand." "Discover." "Architect." "Govern." "Synthesize."
           fixtures.empty_store _ fixtures.route_input
           (orchestrator.boot 0%nat)); reflexivity.
Defined.

